(** * scs: session lifecycle engine and its echo middleware

    A shallow embedding of [data.go], the session manager file
    ([Session], [WriteSessionCookie], [AddHeaderIfMissing]) and the echo
    middleware ([SessionsWithConfig]), with the properties of the
    specification stated over it.

    Conventions of the embedding:
    - Go code that reads or writes the request, the store, the clock or the
      random source is a computation in the monad [M W], a state
      transformer over [W] that either returns or panics;
    - a Go [error] is the text of its message, [nil] is [None];
    - a [time.Time] is the instant in nanoseconds since the Unix epoch, a
      [time.Duration] a number of nanoseconds;
    - [*sessionData] pointers are locations of a heap, so that the record a
      request holds in its scratch map is shared by every operation;
    - the mutex of a [sessionData] is not modelled: one request is one
      sequential thread of control here;
    - a values map is never the nil map, and the managers of one world
      share its store. *)

From Stdlib Require Import ZArith String List Ascii.
From Stdlib Require Import Strings.Byte.
From Stdlib Require Import Floats.SpecFloat.
From stdpp Require Import base strings gmap list sorting pretty.

Local Open Scope string_scope.

(** ** Results, panics and the state monad *)

Definition error := string.

Inductive result (A : Type) : Type :=
| Ok (a : A)
| Err (e : error).
Arguments Ok {A} a.
Arguments Err {A} e.

Inductive outcome (A : Type) : Type :=
| Ret (a : A)
| Panic (msg : string).
Arguments Ret {A} a.
Arguments Panic {A} msg.

Definition M (W A : Type) : Type := W → outcome A * W.

#[global] Instance M_ret {W} : MRet (M W) := λ A a w, (Ret a, w).

#[global] Instance M_bind {W} : MBind (M W) := λ A B f m w,
  match m w with
  | (Ret a, w') => f a w'
  | (Panic msg, w') => (Panic msg, w')
  end.

Definition panic {W A} (msg : string) : M W A := λ w, (Panic msg, w).
Definition gets {W A} (f : W → A) : M W A := λ w, (Ret (f w), w).
Definition modify {W} (f : W → W) : M W unit := λ w, (Ret tt, f w).

(** ** Time *)

Definition Time := Z.
Definition Duration := Z.

Definition Second : Duration := 1000000000%Z.

(** [time.Time{}]: January 1, year 1, 00:00:00 UTC. *)
Definition time_zero : Time := (-62135596800 * 1000000000)%Z.

Definition IsZero (t : Time) : bool := (t =? time_zero)%Z.

(** [time.Unix(sec, 0)] and [t.Unix()]. *)
Definition time_Unix (sec : Z) : Time := (sec * 1000000000)%Z.
Definition Unix (t : Time) : Z := (t / 1000000000)%Z.

Definition Add (t : Time) (d : Duration) : Time := (t + d)%Z.
Definition Before (t u : Time) : bool := (t <? u)%Z.

Definition minDuration : Duration := (- 2 ^ 63)%Z.
Definition maxDuration : Duration := (2 ^ 63 - 1)%Z.

(** [t.Sub(u)]: the difference, saturated to the range of an int64. *)
Definition Sub (t u : Time) : Duration :=
  let d := (t - u)%Z in
  if (d <? minDuration)%Z then minDuration
  else if (maxDuration <? d)%Z then maxDuration
  else d.

(** ** float64, as far as [Duration.Seconds] needs it *)

Definition f64 := spec_float.
Definition f64_of_int (z : Z) : f64 := binary_normalize 53 1024 z 0 false.
Definition f64_add : f64 → f64 → f64 := SFadd 53 1024.
Definition f64_div : f64 → f64 → f64 := SFdiv 53 1024.

(** The conversion [int(f)] of a finite float: the fraction is discarded
    (truncation towards zero). *)
Definition int_of_f64 (f : f64) : Z :=
  match f with
  | S754_finite sg m e =>
      let a := if (0 <=? e)%Z then (Z.pos m * 2 ^ e)%Z
               else (Z.pos m / 2 ^ (- e))%Z in
      if sg then (- a)%Z else a
  | _ => 0%Z
  end.

(** [d.Seconds()]:
    [sec := d / Second; nsec := d % Second;
     return float64(sec) + float64(nsec)/1e9]. *)
Definition Seconds (d : Duration) : f64 :=
  let sec := Z.quot d Second in
  let nsec := Z.rem d Second in
  f64_add (f64_of_int sec) (f64_div (f64_of_int nsec) (f64_of_int 1000000000)).

(** ** The data model of data.go *)

Inductive Status : Type := Unmodified | Modified | Destroyed.

#[global] Instance Status_eq_dec : EqDecision Status.
Proof. solve_decision. Defined.

(** An [interface{}] held in the values map: the dynamic types the typed
    accessors know, [nil], and any other (registered) type. *)
Inductive value : Type :=
| VNil
| VString (s : string)
| VBool (b : bool)
| VInt (i : Z)
| VFloat (f : f64)
| VBytes (b : option (list byte))
| VTime (t : Time)
| VOther (tag : nat).

Record sessionData : Type := mkSessionData {
  Deadline : Time;
  status : Status;
  token : string;
  Values : gmap string value
}.

Definition set_Deadline (d : Time) (sd : sessionData) : sessionData :=
  mkSessionData d (status sd) (token sd) (Values sd).
Definition set_status (st : Status) (sd : sessionData) : sessionData :=
  mkSessionData (Deadline sd) st (token sd) (Values sd).
Definition set_token (t : string) (sd : sessionData) : sessionData :=
  mkSessionData (Deadline sd) (status sd) t (Values sd).
Definition set_Values (v : gmap string value) (sd : sessionData) : sessionData :=
  mkSessionData (Deadline sd) (status sd) (token sd) v.

Record SessionCookie : Type := mkSessionCookie {
  Name : string;
  Domain : string;
  HttpOnly : bool;
  Path : string;
  Persist : bool;
  SameSite : Z;
  Secure : bool
}.

Record Session : Type := mkSession {
  IdleTimeout : Duration;
  Lifetime : Duration;
  Cookie : SessionCookie;
  contextKey : string
}.

(** [http.Cookie], with the fields [WriteSessionCookie] sets. A cookie
    literal leaves [Expires] at the zero time and [MaxAge] at 0. *)
Record http_Cookie : Type := mkCookie {
  cName : string;
  cValue : string;
  cPath : string;
  cDomain : string;
  cExpires : Time;
  cMaxAge : Z;
  cSecure : bool;
  cHttpOnly : bool;
  cSameSite : Z
}.

(** What the scratch map of a request holds under a key: a [*sessionData]
    or a value of some other type. *)
Inductive ctxval : Type :=
| CSession (p : nat)
| COther (tag : nat).

(** ** The collaborators: store, codec, cookie serialisation *)

(** The [Store] interface of a manager, over the state [S] of the store. *)
Class Store (S : Type) : Type := {
  Find : string → S → result (option (list byte)) * S;
  StoreCommit : string → list byte → Time → S → option error * S;
  Delete : string → S → option error * S
}.

(** [encoding/gob] on the exported fields [Deadline] and [Values], and
    [http.Cookie.String]. *)
Class Codec : Type := {
  gob_encode : Time → gmap string value → result (list byte);
  gob_decode : list byte → result (Time * gmap string value);
  cookie_String : http_Cookie → string
}.

(** ** The world a request runs in *)

(** [b := make([]byte, 32)] as the random source fills it: 32 bytes. *)
Definition fill32 (b : list byte) : list byte :=
  take 32 (b ++ replicate 32 x00).

Record world (S : Type) : Type := mkWorld {
  w_store : S;
  w_heap : gmap nat sessionData;
  w_scratch : gmap string ctxval;
  w_cookies : gmap string string;
  w_headers : gmap string (list string);
  w_clock : nat → Time;
  w_ticks : nat;
  w_entropy : nat → result (list byte);
  w_draws : nat
}.
Arguments mkWorld {S}.
Arguments w_store {S}.
Arguments w_heap {S}.
Arguments w_scratch {S}.
Arguments w_cookies {S}.
Arguments w_headers {S}.
Arguments w_clock {S}.
Arguments w_ticks {S}.
Arguments w_entropy {S}.
Arguments w_draws {S}.

Section World.
Context {S : Type}.

Definition set_store (st : S) (w : world S) : world S :=
  mkWorld st (w_heap w) (w_scratch w) (w_cookies w) (w_headers w)
          (w_clock w) (w_ticks w) (w_entropy w) (w_draws w).
Definition set_heap (h : gmap nat sessionData) (w : world S) : world S :=
  mkWorld (w_store w) h (w_scratch w) (w_cookies w) (w_headers w)
          (w_clock w) (w_ticks w) (w_entropy w) (w_draws w).
Definition set_scratch (c : gmap string ctxval) (w : world S) : world S :=
  mkWorld (w_store w) (w_heap w) c (w_cookies w) (w_headers w)
          (w_clock w) (w_ticks w) (w_entropy w) (w_draws w).
Definition set_headers (h : gmap string (list string)) (w : world S) : world S :=
  mkWorld (w_store w) (w_heap w) (w_scratch w) (w_cookies w) h
          (w_clock w) (w_ticks w) (w_entropy w) (w_draws w).
Definition set_ticks (n : nat) (w : world S) : world S :=
  mkWorld (w_store w) (w_heap w) (w_scratch w) (w_cookies w) (w_headers w)
          (w_clock w) n (w_entropy w) (w_draws w).
Definition set_draws (n : nat) (w : world S) : world S :=
  mkWorld (w_store w) (w_heap w) (w_scratch w) (w_cookies w) (w_headers w)
          (w_clock w) (w_ticks w) (w_entropy w) n.

(** [time.Now()]: the next reading of the clock. *)
Definition time_Now : M (world S) Time :=
  λ w, (Ret (w_clock w (w_ticks w)), set_ticks (Datatypes.S (w_ticks w)) w).

(** [rand.Read(b)] on a buffer of 32 bytes: the next draw from the random
    source, which fills the buffer or fails. *)
Definition rand_Read : M (world S) (result (list byte)) :=
  λ w, (Ret (match w_entropy w (w_draws w) with
             | Ok b => Ok (fill32 b)
             | Err e => Err e
             end),
        set_draws (Datatypes.S (w_draws w)) w).

(** [c.Get(key)] and [c.Set(key, val)]. *)
Definition ctx_Get (key : string) : M (world S) (option ctxval) :=
  gets (λ w, w_scratch w !! key).
Definition ctx_Set (key : string) (v : ctxval) : M (world S) unit :=
  modify (λ w, set_scratch (<[key := v]> (w_scratch w)) w).

(** [&sessionData{...}]: a new record on the heap. *)
Definition alloc (sd : sessionData) : M (world S) nat :=
  λ w, let p := fresh (dom (w_heap w)) in
       (Ret p, set_heap (<[p := sd]> (w_heap w)) w).

(** Reading and writing the record behind a pointer. *)
Definition deref (p : nat) : M (world S) sessionData :=
  λ w, match w_heap w !! p with
       | Some sd => (Ret sd, w)
       | None => (Panic "invalid memory address or nil pointer dereference", w)
       end.
Definition assign (p : nat) (sd : sessionData) : M (world S) unit :=
  modify (λ w, set_heap (<[p := sd]> (w_heap w)) w).
End World.

(** ** generateToken *)

(** The alphabet of [base64.RawURLEncoding]. *)
Definition encodeURL : string :=
  "ABCDEFGHIJKLMNOPQRSTUVWXYZabcdefghijklmnopqrstuvwxyz0123456789-_".

Definition b64char (n : N) : ascii :=
  match String.get (N.to_nat (N.land n 63)) encodeURL with
  | Some c => c
  | None => "A"%char
  end.

(** [base64.RawURLEncoding.EncodeToString]: three bytes give four
    characters, a remainder of one or two bytes gives two or three, and
    there is no padding. *)
Fixpoint EncodeToString (b : list byte) : string :=
  match b with
  | [] => ""
  | [x] =>
      let v := N.shiftl (Byte.to_N x) 16 in
      String (b64char (N.shiftr v 18)) (String (b64char (N.shiftr v 12)) "")
  | [x; y] =>
      let v := N.lor (N.shiftl (Byte.to_N x) 16) (N.shiftl (Byte.to_N y) 8) in
      String (b64char (N.shiftr v 18)) (String (b64char (N.shiftr v 12))
        (String (b64char (N.shiftr v 6)) ""))
  | x :: y :: z :: rest =>
      let v := N.lor (N.lor (N.shiftl (Byte.to_N x) 16) (N.shiftl (Byte.to_N y) 8))
                     (Byte.to_N z) in
      String (b64char (N.shiftr v 18)) (String (b64char (N.shiftr v 12))
        (String (b64char (N.shiftr v 6)) (String (b64char v)
          (EncodeToString rest))))
  end.

(** ** sort.Strings: ascending in the byte order of strings *)

Definition string_le (a b : string) : Prop := String.leb a b = true.

#[global] Instance string_le_dec (a b : string) : Decision (string_le a b).
Proof. unfold string_le. solve_decision. Defined.

Definition sort_Strings (keys : list string) : list string :=
  merge_sort string_le keys.

Section Manager.
Context {S : Type} `{!Store S} `{!Codec}.

Definition generateToken : M (world S) (result string) :=
  r ← rand_Read;
  match r with
  | Err e => mret (Err e)
  | Ok b => mret (Ok (EncodeToString b))
  end.

(** ** The store, called through the manager *)

Definition Store_Find (tok : string) : M (world S) (result (option (list byte))) :=
  λ w, let (r, st) := Find tok (w_store w) in (Ret r, set_store st w).
Definition Store_Commit (tok : string) (b : list byte) (expiry : Time)
  : M (world S) (option error) :=
  λ w, let (r, st) := StoreCommit tok b expiry (w_store w) in (Ret r, set_store st w).
Definition Store_Delete (tok : string) : M (world S) (option error) :=
  λ w, let (r, st) := Delete tok (w_store w) in (Ret r, set_store st w).

(** ** encode and decode *)

Definition encode (sd : sessionData) : result (list byte) :=
  gob_encode (Deadline sd) (Values sd).

(** [sd.decode(b)] fills the exported fields of the record behind [p]. *)
Definition decode (p : nat) (b : list byte) : M (world S) (option error) :=
  sd ← deref p;
  match gob_decode b with
  | Err e => mret (Some e)
  | Ok (d, v) => assign p (set_Values v (set_Deadline d sd));; mret None
  end.

(** ** Load *)

Definition newSessionData (lifetime : Duration) : M (world S) nat :=
  now ← time_Now;
  alloc (mkSessionData (Add now lifetime) Unmodified "" ∅).

Definition Load (s : Session) (tok : string) : M (world S) (result nat) :=
  val ← ctx_Get (contextKey s);
  match val with
  | Some (CSession sd) => mret (Ok sd)
  | _ =>
      if decide (tok = "") then
        sd ← newSessionData (Lifetime s);
        ctx_Set (contextKey s) (CSession sd);;
        mret (Ok sd)
      else
        r ← Store_Find tok;
        match r with
        | Err e => mret (Err e)
        | Ok None =>
            sd ← newSessionData (Lifetime s);
            ctx_Set (contextKey s) (CSession sd);;
            mret (Ok sd)
        | Ok (Some b) =>
            sd ← alloc (mkSessionData time_zero Unmodified tok ∅);
            err ← decode sd b;
            match err with
            | Some e => mret (Err e)
            | None =>
                (if (0 <? IdleTimeout s)%Z then
                   d ← deref sd; assign sd (set_status Modified d)
                 else mret tt);;
                ctx_Set (contextKey s) (CSession sd);;
                mret (Ok sd)
            end
        end
  end.

(** ** Resolving the session of the request *)

Definition getSessionDataFromContext (s : Session) : M (world S) nat :=
  val ← ctx_Get (contextKey s);
  match val with
  | Some (CSession sd) => mret sd
  | _ => panic "scs: no session data in context"
  end.

(** ** Commit, Destroy, RenewToken *)

Definition Commit (s : Session) : M (world S) (string * Time * option error) :=
  p ← getSessionDataFromContext s;
  sd ← deref p;
  minted ← (if decide (token sd = "") then
              r ← generateToken;
              match r with
              | Err e => assign p (set_token "" sd);; mret (Some e)
              | Ok t => assign p (set_token t sd);; mret None
              end
            else mret None);
  match minted with
  | Some e => mret ("", time_zero, Some e)
  | None =>
      sd ← deref p;
      match encode sd with
      | Err e => mret ("", time_zero, Some e)
      | Ok b =>
          expiry ← (if (0 <? IdleTimeout s)%Z then
                      now ← time_Now;
                      let ie := Add now (IdleTimeout s) in
                      mret (if Before ie (Deadline sd) then ie else Deadline sd)
                    else mret (Deadline sd));
          err ← Store_Commit (token sd) b expiry;
          match err with
          | Some e => mret ("", time_zero, Some e)
          | None => mret (token sd, expiry, None)
          end
      end
  end.

(** [for key := range sd.Values { delete(sd.Values, key) }] *)
Definition delete_all (vals : gmap string value) : gmap string value :=
  foldr delete vals (map_to_list vals).*1.

Definition Destroy (s : Session) : M (world S) (option error) :=
  p ← getSessionDataFromContext s;
  sd ← deref p;
  err ← Store_Delete (token sd);
  match err with
  | Some e => mret (Some e)
  | None =>
      now ← time_Now;
      assign p (mkSessionData (Add now (Lifetime s)) Destroyed ""
                  (delete_all (Values sd)));;
      mret None
  end.

Definition RenewToken (s : Session) : M (world S) (option error) :=
  p ← getSessionDataFromContext s;
  sd ← deref p;
  err ← Store_Delete (token sd);
  match err with
  | Some e => mret (Some e)
  | None =>
      r ← generateToken;
      match r with
      | Err e => mret (Some e)
      | Ok newToken =>
          now ← time_Now;
          assign p (set_status Modified
                      (set_Deadline (Add now (Lifetime s))
                         (set_token newToken sd)));;
          mret None
      end
  end.

(** ** The values map *)

Definition Put (s : Session) (key : string) (val : value) : M (world S) unit :=
  p ← getSessionDataFromContext s;
  sd ← deref p;
  assign p (set_status Modified (set_Values (<[key := val]> (Values sd)) sd)).

Definition Get (s : Session) (key : string) : M (world S) value :=
  p ← getSessionDataFromContext s;
  sd ← deref p;
  mret (default VNil (Values sd !! key)).

Definition Pop (s : Session) (key : string) : M (world S) value :=
  p ← getSessionDataFromContext s;
  sd ← deref p;
  match Values sd !! key with
  | None => mret VNil
  | Some val =>
      assign p (set_status Modified (set_Values (delete key (Values sd)) sd));;
      mret val
  end.

Definition Remove (s : Session) (key : string) : M (world S) unit :=
  p ← getSessionDataFromContext s;
  sd ← deref p;
  match Values sd !! key with
  | None => mret tt
  | Some _ =>
      assign p (set_status Modified (set_Values (delete key (Values sd)) sd))
  end.

Definition Exists (s : Session) (key : string) : M (world S) bool :=
  p ← getSessionDataFromContext s;
  sd ← deref p;
  mret (bool_decide (is_Some (Values sd !! key))).

Definition Keys (s : Session) : M (world S) (list string) :=
  p ← getSessionDataFromContext s;
  sd ← deref p;
  mret (sort_Strings (map_to_list (Values sd)).*1).

(** The method [Status] of the manager; [Status] itself names the type. *)
Definition GetStatus (s : Session) : M (world S) Status :=
  p ← getSessionDataFromContext s;
  sd ← deref p;
  mret (status sd).

Definition Token (s : Session) : M (world S) string :=
  p ← getSessionDataFromContext s;
  sd ← deref p;
  mret (token sd).

(** ** Type assertions and the typed accessors *)

Definition as_string (v : value) : string :=
  match v with VString str => str | _ => "" end.
Definition as_bool (v : value) : bool :=
  match v with VBool b => b | _ => false end.
Definition as_int (v : value) : Z :=
  match v with VInt i => i | _ => 0%Z end.
Definition as_float (v : value) : f64 :=
  match v with VFloat f => f | _ => S754_zero false end.
Definition as_bytes (v : value) : option (list byte) :=
  match v with VBytes b => b | _ => None end.
Definition as_time (v : value) : Time :=
  match v with VTime t => t | _ => time_zero end.

Definition GetString (s : Session) (key : string) : M (world S) string :=
  val ← Get s key; mret (as_string val).
Definition GetBool (s : Session) (key : string) : M (world S) bool :=
  val ← Get s key; mret (as_bool val).
Definition GetInt (s : Session) (key : string) : M (world S) Z :=
  val ← Get s key; mret (as_int val).
Definition GetFloat (s : Session) (key : string) : M (world S) f64 :=
  val ← Get s key; mret (as_float val).
Definition GetBytes (s : Session) (key : string) : M (world S) (option (list byte)) :=
  val ← Get s key; mret (as_bytes val).
Definition GetTime (s : Session) (key : string) : M (world S) Time :=
  val ← Get s key; mret (as_time val).

Definition PopString (s : Session) (key : string) : M (world S) string :=
  val ← Pop s key; mret (as_string val).
Definition PopBool (s : Session) (key : string) : M (world S) bool :=
  val ← Pop s key; mret (as_bool val).
Definition PopInt (s : Session) (key : string) : M (world S) Z :=
  val ← Pop s key; mret (as_int val).
Definition PopFloat (s : Session) (key : string) : M (world S) f64 :=
  val ← Pop s key; mret (as_float val).
Definition PopBytes (s : Session) (key : string) : M (world S) (option (list byte)) :=
  val ← Pop s key; mret (as_bytes val).
Definition PopTime (s : Session) (key : string) : M (world S) Time :=
  val ← Pop s key; mret (as_time val).

End Manager.

(** ** Response headers *)

(** [validHeaderFieldByte] of net/textproto: the token characters of
    RFC 7230. *)
Definition validHeaderFieldByte (c : ascii) : bool :=
  let n := nat_of_ascii c in
  ((65 <=? n)%nat && (n <=? 90)%nat) || ((97 <=? n)%nat && (n <=? 122)%nat)
  || ((48 <=? n)%nat && (n <=? 57)%nat)
  || existsb (Nat.eqb n) [33; 35; 36; 37; 38; 39; 42; 43; 45; 46; 94; 95; 96; 124; 126]%nat.

Fixpoint all_chars (f : ascii → bool) (s : string) : bool :=
  match s with
  | EmptyString => true
  | String c r => f c && all_chars f r
  end.

Fixpoint canonical_case (upper : bool) (s : string) : string :=
  match s with
  | EmptyString => EmptyString
  | String c r =>
      let n := nat_of_ascii c in
      let c' := if upper && (97 <=? n)%nat && (n <=? 122)%nat
                then ascii_of_nat (n - 32)
                else if negb upper && (65 <=? n)%nat && (n <=? 90)%nat
                     then ascii_of_nat (n + 32)
                     else c in
      String c' (canonical_case (nat_of_ascii c' =? 45)%nat r)
  end.

(** [textproto.CanonicalMIMEHeaderKey]: a key that is not made of token
    characters only is left as it is. *)
Definition CanonicalMIMEHeaderKey (s : string) : string :=
  if all_chars validHeaderFieldByte s then canonical_case true s else s.

Definition dquote : ascii := "034"%char.

(** The value [no-cache="Set-Cookie"]. *)
Definition no_cache_Set_Cookie : string :=
  "no-cache=" ++ String dquote ("Set-Cookie" ++ String dquote EmptyString).

Section CookieWriter.
Context {S : Type} `{!Store S} `{!Codec}.

(** [c.Response().Header()[key]] and [c.Response().Header().Add(key, value)]. *)
Definition Header_index (key : string) : M (world S) (list string) :=
  gets (λ w, default [] (w_headers w !! key)).
Definition Header_Add (key value : string) : M (world S) unit :=
  modify (λ w,
    let k := CanonicalMIMEHeaderKey key in
    set_headers (<[k := (default [] (w_headers w !! k) ++ [value])%list]>
                   (w_headers w)) w).

Definition AddHeaderIfMissing (key value : string) : M (world S) unit :=
  hs ← Header_index key;
  if existsb (λ h, String.eqb h value) hs then mret tt
  else Header_Add key value.

(** The cookie [WriteSessionCookie] builds before it writes the headers.
    [time.Until(expiry)] reads the clock. *)
Definition sessionCookie (s : Session) (tok : string) (expiry : Time)
  : M (world S) http_Cookie :=
  let ck := Cookie s in
  let cookie exp age :=
    mkCookie (Name ck) tok (Path ck) (Domain ck) exp age
             (Secure ck) (HttpOnly ck) (SameSite ck) in
  if IsZero expiry then mret (cookie (time_Unix 1) (-1)%Z)
  else if Persist ck then
    now ← time_Now;
    mret (cookie (time_Unix (Unix expiry + 1))
                 (int_of_f64 (f64_add (Seconds (Sub expiry now)) (f64_of_int 1))))
  else mret (cookie time_zero 0%Z).

Definition WriteSessionCookie (s : Session) (tok : string) (expiry : Time)
  : M (world S) unit :=
  cookie ← sessionCookie s tok expiry;
  Header_Add "Set-Cookie" (cookie_String cookie);;
  AddHeaderIfMissing "Cache-Control" no_cache_Set_Cookie;;
  AddHeaderIfMissing "Vary" "Cookie".

(** [c.Cookie(name)]: the value of the request cookie, if there is one. *)
Definition ctx_Cookie (name : string) : M (world S) (option string) :=
  gets (λ w, w_cookies w !! name).

Definition LoadFromMiddleware (s : Session) : M (world S) (option error) :=
  cookie ← ctx_Cookie (Name (Cookie s));
  let tok := default "" cookie in
  r ← Load s tok;
  match r with
  | Err e => mret (Some ("func s.Load failed in Session.LoadFromMiddleware; " ++ e))
  | Ok _ => mret None
  end.

Definition SaveFromMiddleware (s : Session) : M (world S) (option error) :=
  st ← GetStatus s;
  match st with
  | Modified =>
      r ← Commit s;
      match r with
      | (_, _, Some e) => mret (Some e)
      | (tok, expiry, None) => WriteSessionCookie s tok expiry;; mret None
      end
  | Destroyed => WriteSessionCookie s "" time_zero;; mret None
  | Unmodified => mret None
  end.

End CookieWriter.

(** [generateContextKey] and [NewSession], over the process counter
    [contextKeyID]. The store of the new manager is created apart. *)
Definition generateContextKey (contextKeyID : nat) : string * nat :=
  let id := (contextKeyID + 1)%nat in ("session." ++ pretty id, id).

Definition NewSession (contextKeyID : nat) : Session * nat :=
  let (key, id) := generateContextKey contextKeyID in
  (mkSession 0%Z (24 * 3600 * Second)%Z
     (mkSessionCookie "session" "" true "/" true 2%Z false) key, id).

(** ** The echo middleware *)

(** The hooks of a [SessionsConfig], over the request context [W]:
    the skipper and the [LoadCheck] and [SaveCheck] methods of its
    [IEchoSessionSCS]. *)
Record SessionsConfig (W : Type) : Type := mkSessionsConfig {
  Skipper : M W bool;
  LoadCheck : M W (option error);
  SaveCheck : M W (option error)
}.
Arguments mkSessionsConfig {W}.
Arguments Skipper {W}.
Arguments LoadCheck {W}.
Arguments SaveCheck {W}.

(** The handler [SessionsWithConfig(config)(next)]. *)
Definition SessionsWithConfig {W} (config : SessionsConfig W)
  (next : M W (option error)) : M W (option error) :=
  skip ← Skipper config;
  if skip : bool then next
  else
    err ← LoadCheck config;
    match err with
    | Some e => mret (Some ("could not load the session in SessionsWithConfig; " ++ e))
    | None =>
        err ← SaveCheck config;
        match err with
        | Some e => mret (Some ("could not save the session in SessionsWithConfig; " ++ e))
        | None => next
        end
    end.

(** ** EchoSessionSCS: the manager as the middleware configures it *)

(** Arithmetic on an int64 wraps around. *)
Definition wrap64 (z : Z) : Z := ((z + 2 ^ 63) mod 2 ^ 64 - 2 ^ 63)%Z.

Definition Minute : Duration := (60 * Second)%Z.

(** [GOBInterfaces] holds values to register with gob; an entry may be
    nil. A value is known by the tag of its type. *)
Record EchoSessionSCS : Type := mkEchoSessionSCS {
  eSession : Session;
  IdleTimeoutMinutes : Z;
  LifetimeMinutes : Z;
  GOBInterfaces : list (option nat)
}.

Definition GetSession (s : EchoSessionSCS) : EchoSessionSCS := s.

Definition GetIdleTimeout (s : EchoSessionSCS) : Duration :=
  if (IdleTimeoutMinutes s <=? 0)%Z then 0%Z
  else wrap64 (wrap64 (IdleTimeoutMinutes s) * Minute).

Definition GetLifetime (s : EchoSessionSCS) : Duration :=
  if (LifetimeMinutes s <=? 0)%Z then wrap64 (wrap64 1440 * Minute)
  else wrap64 (wrap64 (LifetimeMinutes s) * Minute).

(** [Initialize], over the types gob has registered so far: it always
    returns nil. *)
Definition Initialize (s : EchoSessionSCS) (registered : list nat)
  : option error * EchoSessionSCS * list nat :=
  let sess := eSession s in
  let sess := mkSession (IdleTimeout sess) (GetLifetime s) (Cookie sess)
                        (contextKey sess) in
  let sess := mkSession (GetIdleTimeout s) (Lifetime sess) (Cookie sess)
                        (contextKey sess) in
  (None,
   mkEchoSessionSCS sess (IdleTimeoutMinutes s) (LifetimeMinutes s)
                    (GOBInterfaces s),
   fold_left (λ reg i, match i with
                       | Some t => (reg ++ [t])%list
                       | None => reg
                       end)
             (GOBInterfaces s) registered).

(** ** sessioncache.go: the named managers of the process *)

(** The cache maps a key to a [*SessionsConfig]; [C] is the type of these
    pointers, and [None] the nil pointer. The lock of the cache is not
    modelled. *)
Record sessionCache (C : Type) : Type := mkSessionCache {
  instances : gmap string C
}.
Arguments mkSessionCache {C}.
Arguments instances {C}.

Section SessionCache.
Context {C : Type}.

(** [SessionCache()]: the cache of the process, created on first use. *)
Definition SessionCache (scache : option (sessionCache C))
  : sessionCache C * option (sessionCache C) :=
  match scache with
  | None => let sc := mkSessionCache ∅ in (sc, Some sc)
  | Some sc => (sc, scache)
  end.

Definition Register (key : string) (instance : option C) (sc : sessionCache C)
  : sessionCache C :=
  match instance with
  | None => sc
  | Some i => mkSessionCache (<[key := i]> (instances sc))
  end.

Definition RegisterWithErrorChecks (key : string) (instance : option C)
  (sc : sessionCache C) : option error * sessionCache C :=
  match instance with
  | None =>
      (Some ("cannot register cache because SessionsConfig instance is nil where session key is "
             ++ key), sc)
  | Some i =>
      match instances sc !! key with
      | Some _ =>
          (Some ("cannot register cache because SessionsConfig instance already found in cache where session key is "
                 ++ key), sc)
      | None => (None, mkSessionCache (<[key := i]> (instances sc)))
      end
  end.

Definition CacheGet (key : string) (sc : sessionCache C) : option C :=
  match instances sc !! key with
  | None => None
  | Some instance => Some instance
  end.

Definition Length (sc : sessionCache C) : nat := size (instances sc).

Definition CacheRemove (key : string) (sc : sessionCache C)
  : option error * sessionCache C :=
  match instances sc !! key with
  | None => (None, sc)
  | Some _ => (None, mkSessionCache (delete key (instances sc)))
  end.

End SessionCache.

(** ** SessionsWithConfig: what runs before the handler is built *)

(** A [SessionsConfig] as the process holds it: the skipper (a function,
    known by a tag, or nil), the session (a pointer to the object behind
    the [IEchoSessionSCS], or nil) and [DoCache]. *)
Record SessionsConfigObj : Type := mkSessionsConfigObj {
  cSkipper : option nat;
  cSession : option nat;
  DoCache : bool
}.

(** The object behind an [IEchoSessionSCS]: the [EchoSessionSCS] that
    [GetSession] returns and the [Initialize] method of its dynamic type. *)
Record ISession : Type := mkISession {
  iEcho : EchoSessionSCS;
  iInitialize : EchoSessionSCS → list nat → option error * EchoSessionSCS * list nat
}.

(** The state of the process the middleware is set up in: the configs and
    session objects by address, the cache, the types registered with gob. *)
Record process : Type := mkProcess {
  p_configs : gmap nat SessionsConfigObj;
  p_sessions : gmap nat ISession;
  p_scache : option (sessionCache nat);
  p_gob : list nat
}.

(** [&DefaultSessionsConfig]. *)
Definition DefaultSessionsConfig : nat := 0.

Definition nil_dereference : string :=
  "invalid memory address or nil pointer dereference".

Definition read_config (c : nat) : M process SessionsConfigObj :=
  λ ps, match p_configs ps !! c with
        | Some cfg => (Ret cfg, ps)
        | None => (Panic nil_dereference, ps)
        end.

Definition write_config (c : nat) (cfg : SessionsConfigObj) : M process unit :=
  modify (λ ps, mkProcess (<[c := cfg]> (p_configs ps)) (p_sessions ps)
                          (p_scache ps) (p_gob ps)).

(** [config.Session.Initialize()], on the object the interface holds. *)
Definition call_Initialize (session : option nat) : M process (option error) :=
  λ ps, match session with
        | None => (Panic nil_dereference, ps)
        | Some q =>
            match p_sessions ps !! q with
            | None => (Panic nil_dereference, ps)
            | Some obj =>
                let '(err, e, reg) := iInitialize obj (iEcho obj) (p_gob ps) in
                (Ret err,
                 mkProcess (p_configs ps)
                           (<[q := mkISession e (iInitialize obj)]> (p_sessions ps))
                           (p_scache ps) reg)
            end
        end.

(** [config.Session.GetSession().Cookie.Name]. *)
Definition cookie_name_of (session : option nat) : M process string :=
  λ ps, match session ≫= (λ q, p_sessions ps !! q) with
        | None => (Panic nil_dereference, ps)
        | Some obj => (Ret (Name (Cookie (eSession (GetSession (iEcho obj))))), ps)
        end.

(** [SessionCache().RegisterWithErrorChecks(key, config)]. *)
Definition cache_RegisterWithErrorChecks (key : string) (config : nat)
  : M process (option error) :=
  λ ps, let (sc, _) := SessionCache (p_scache ps) in
        let (err, sc') := RegisterWithErrorChecks key (Some config) sc in
        (Ret err, mkProcess (p_configs ps) (p_sessions ps) (Some sc') (p_gob ps)).

Definition cannot_initialize (err : error) : string :=
  "cannot initialize session in SessionsWithConfig; " ++ err.

(** The statements of [SessionsWithConfig(config)] up to the [return] of
    the middleware; the result is the config the middleware closes over. *)
Definition SessionsWithConfig_setup (config : option nat) : M process nat :=
  let config := default DefaultSessionsConfig config in
  cfg ← read_config config;
  (if cSkipper cfg is None then
     dflt ← read_config DefaultSessionsConfig;
     write_config config (mkSessionsConfigObj (cSkipper dflt) (cSession cfg) (DoCache cfg))
   else mret tt);;
  cfg ← read_config config;
  (if cSession cfg is None then
     dflt ← read_config DefaultSessionsConfig;
     write_config config (mkSessionsConfigObj (cSkipper cfg) (cSession dflt) (DoCache cfg))
   else mret tt);;
  cfg ← read_config config;
  err ← call_Initialize (cSession cfg);
  match err with
  | Some e => panic (cannot_initialize e)
  | None =>
      if DoCache cfg then
        name ← cookie_name_of (cSession cfg);
        err ← cache_RegisterWithErrorChecks name config;
        match err with
        | Some e => panic (cannot_initialize e)
        | None => mret config
        end
      else mret config
  end.

(** [Sessions()]. *)
Definition Sessions_setup : M process nat := SessionsWithConfig_setup None.

(** ** The methods of sessionData, and the LoadFromMiddleware of the tests *)

Section Override.
Context {S : Type} `{!Store S} `{!Codec}.

(** [sd.Token()] and [sd.SetStatus(status)], on the record behind [sd]. *)
Definition sessionData_Token (sd : nat) : M (world S) string :=
  d ← deref sd; mret (token d).
Definition sessionData_SetStatus (sd : nat) (st : Status) : M (world S) unit :=
  d ← deref sd; assign sd (set_status st d).

(** [MyEchoSession.LoadFromMiddleware] of echosessionscs_test.go, which
    always requires a token; its [SaveFromMiddleware] is, line by line,
    that of [Session]. *)
Definition MyEchoSession_LoadFromMiddleware (s : Session)
  : M (world S) (option error) :=
  cookie ← ctx_Cookie (Name (Cookie s));
  let tok := default "" cookie in
  r ← Load s tok;
  match r with
  | Err e =>
      mret (Some ("func s.Load failed in MyEchoSession.LoadFromMiddleware; " ++ e))
  | Ok sd =>
      t ← sessionData_Token sd;
      (if decide (t = "") then sessionData_SetStatus sd Modified else mret tt);;
      mret None
  end.

(** The [SessionsConfig] of the tests around a manager [s]. *)
Definition MyEchoSession_config (s : Session) : SessionsConfig (world S) :=
  mkSessionsConfig (mret false) (MyEchoSession_LoadFromMiddleware s)
                   (SaveFromMiddleware s).

End Override.

(** * The vocabulary of the properties *)

(** ** Sessions in a request *)

Section Statements.
Context {S : Type} `{!Store S} `{!Codec}.
Implicit Types (s : Session) (w : world S) (sd : sessionData) (p : nat).

(** The request holds no [*sessionData] under the key of the manager. *)
Definition no_session s w : Prop :=
  ∀ p, w_scratch w !! contextKey s ≠ Some (CSession p).

(** The request holds the record [sd], at [p], under the key of the
    manager. *)
Definition session_at s w p sd : Prop :=
  w_scratch w !! contextKey s = Some (CSession p) ∧ w_heap w !! p = Some sd.

(** The session of the manager in a world, if there is one. *)
Definition current s w : option sessionData :=
  match w_scratch w !! contextKey s with
  | Some (CSession p) => w_heap w !! p
  | _ => None
  end.

Definition no_session_panic : string := "scs: no session data in context".

(** The world after the record at [p] has lost [key] and become Modified. *)
Definition popped p sd (key : string) w : world S :=
  set_heap (<[p := set_status Modified
                     (set_Values (delete key (Values sd)) sd)]> (w_heap w)) w.

(** [Load] mints a session: it returns a record that was not on the heap
    and is the one [newSessionData] makes. *)
Definition mints_fresh s (tok : string) w : Prop :=
  ∃ p, fst (Load s tok w) = Ret (Ok p) ∧
       w_heap w !! p = None ∧
       w_heap (snd (Load s tok w)) !! p
       = Some (mkSessionData (Add (w_clock w (w_ticks w)) (Lifetime s))
                             Unmodified "" ∅).

(** Any number of saves, by any managers, on one request. *)
Fixpoint write_all (calls : list (Session * string * Time)) : M (world S) unit :=
  match calls with
  | [] => mret tt
  | (s, tok, expiry) :: rest => WriteSessionCookie s tok expiry;; write_all rest
  end.

(** How many headers [key] of the response have exactly the value [v]. *)
Definition occurrences (key v : string) w : nat :=
  count_occ string_dec (default [] (w_headers w !! key)) v.

End Statements.

(** ** Sequences of operations *)

(** The operations of a manager, as a request may call them in sequence. *)
Inductive op : Type :=
| OpLoad (tok : string)
| OpCommit
| OpDestroy
| OpRenewToken
| OpPut (key : string) (val : value)
| OpGet (key : string)
| OpPop (key : string)
| OpRemove (key : string)
| OpExists (key : string)
| OpKeys
| OpStatus
| OpToken
| OpGetString (key : string)
| OpGetBool (key : string)
| OpGetInt (key : string)
| OpGetFloat (key : string)
| OpGetBytes (key : string)
| OpGetTime (key : string)
| OpPopString (key : string)
| OpPopBool (key : string)
| OpPopInt (key : string)
| OpPopFloat (key : string)
| OpPopBytes (key : string)
| OpPopTime (key : string).

Section Sequences.
Context {S : Type} `{!Store S} `{!Codec}.
Implicit Types (s : Session) (w : world S) (sd : sessionData) (p : nat).

(** One operation, for its effect on the world. *)
Definition exec s (o : op) : M (world S) unit :=
  match o with
  | OpLoad tok => Load s tok;; mret tt
  | OpCommit => Commit s;; mret tt
  | OpDestroy => Destroy s;; mret tt
  | OpRenewToken => RenewToken s;; mret tt
  | OpPut key val => Put s key val
  | OpGet key => Get s key;; mret tt
  | OpPop key => Pop s key;; mret tt
  | OpRemove key => Remove s key
  | OpExists key => Exists s key;; mret tt
  | OpKeys => Keys s;; mret tt
  | OpStatus => GetStatus s;; mret tt
  | OpToken => Token s;; mret tt
  | OpGetString key => GetString s key;; mret tt
  | OpGetBool key => GetBool s key;; mret tt
  | OpGetInt key => GetInt s key;; mret tt
  | OpGetFloat key => GetFloat s key;; mret tt
  | OpGetBytes key => GetBytes s key;; mret tt
  | OpGetTime key => GetTime s key;; mret tt
  | OpPopString key => PopString s key;; mret tt
  | OpPopBool key => PopBool s key;; mret tt
  | OpPopInt key => PopInt s key;; mret tt
  | OpPopFloat key => PopFloat s key;; mret tt
  | OpPopBytes key => PopBytes s key;; mret tt
  | OpPopTime key => PopTime s key;; mret tt
  end.

(** A sequence of operations; a panic ends the request where it stands. *)
Fixpoint run_ops s (ops : list op) w : world S :=
  match ops with
  | [] => w
  | o :: rest =>
      match exec s o w with
      | (Ret _, w') => run_ops s rest w'
      | (Panic _, w') => w'
      end
  end.

(** Whether the session of the manager is Destroyed. *)
Definition is_Destroyed s w : bool :=
  match current s w with
  | Some sd => match status sd with Destroyed => true | _ => false end
  | None => false
  end.

Definition is_Commit (o : op) : bool :=
  match o with OpCommit => true | _ => false end.

(** No Commit of the sequence runs on a session that is Destroyed at that
    moment. *)
Fixpoint no_Commit_on_Destroyed s (ops : list op) w : bool :=
  match ops with
  | [] => true
  | o :: rest =>
      negb (is_Commit o && is_Destroyed s w) &&
      match exec s o w with
      | (Ret _, w') => no_Commit_on_Destroyed s rest w'
      | (Panic _, _) => true
      end
  end.

(** What the specification says of a destroyed record, and the part of it
    that concerns the values alone. *)
Definition destroyed_clean sd : Prop :=
  status sd = Destroyed → token sd = "" ∧ Values sd = ∅.
Definition destroyed_empty sd : Prop :=
  status sd = Destroyed → Values sd = ∅.

End Sequences.

(** ** Seconds, rounded up *)

(** The number of seconds of a duration, rounded up, in the words of the
    specification: ceil(expiry - now). *)
Definition ceil_seconds (d : Duration) : Z := (- ((- d) / Second))%Z.

(** ** The steps of the middleware *)

Inductive step : Type :=
| SkipperStep
| LoadCheckStep
| SaveCheckStep
| HandlerStep.

(** A computation that notes, in a log kept next to the request, that it
    has run. *)
Definition logged {W A} (ev : step) (m : M W A) : M (W * list step) A :=
  λ wl, let (r, w') := m (fst wl) in (r, (w', (snd wl ++ [ev])%list)).

Definition logged_config {W} (config : SessionsConfig W)
  : SessionsConfig (W * list step) :=
  mkSessionsConfig (logged SkipperStep (Skipper config))
                   (logged LoadCheckStep (LoadCheck config))
                   (logged SaveCheckStep (SaveCheck config)).

(** The steps the middleware takes on a request, in their order. *)
Definition steps_taken {W} (config : SessionsConfig W)
  (next : M W (option error)) (w : W) : list step :=
  snd (snd (SessionsWithConfig (logged_config config)
                               (logged HandlerStep next) (w, []))).

(** ** Headers, cookies, minutes and configs *)

Section MoreStatements.
Context {S : Type}.
Implicit Types (s : Session) (w : world S).

(** The Set-Cookie headers of the response. *)
Definition Set_Cookies w : list string :=
  default [] (w_headers w !! "Set-Cookie").

(** The cookie that clears the session in the browser. *)
Definition clearing_cookie s : http_Cookie :=
  mkCookie (Name (Cookie s)) "" (Path (Cookie s)) (Domain (Cookie s))
           (time_Unix 1) (-1)%Z (Secure (Cookie s)) (HttpOnly (Cookie s))
           (SameSite (Cookie s)).

End MoreStatements.

(** The most minutes whose nanoseconds an int64 holds. *)
Definition max_minutes : Z := 153722867%Z.

(** The config SessionsWithConfig goes on with, once a nil Skipper and a
    nil Session have been taken from the default config. *)
Definition with_defaults (dflt cfg : SessionsConfigObj) : SessionsConfigObj :=
  mkSessionsConfigObj
    (if cSkipper cfg is Some k then Some k else cSkipper dflt)
    (if cSession cfg is Some q then Some q else cSession dflt)
    (DoCache cfg).

(** The config at [c] stands beside the default config [dflt], and its
    session, its own or else that of the default config, is the object
    [obj] at [q]. *)
Definition configured (ps : process) (c : nat) (dflt cfg : SessionsConfigObj)
  (q : nat) (obj : ISession) : Prop :=
  p_configs ps !! DefaultSessionsConfig = Some dflt ∧
  p_configs ps !! c = Some cfg ∧
  cSession (with_defaults dflt cfg) = Some q ∧
  p_sessions ps !! q = Some obj.

(** ** The reference store and the fixtures of the examples *)

(** Modelled from the spec: package [memstore] is not among the sources.
    The reference in-memory store maps a token to its payload and expiry;
    [Find] reports an entry past its expiry as not found, [Commit] inserts
    or overwrites, [Delete] removes and accepts a missing token, and no
    operation fails. [ms_now] is the time at which the store is asked. *)
Record memstore : Type := mkMemstore {
  ms_items : gmap string (list byte * Time);
  ms_now : Time
}.

#[global] Instance memstore_Store : Store memstore := {|
  Find tok st :=
    (Ok (match ms_items st !! tok with
         | Some (b, expiry) => if (expiry <? ms_now st)%Z then None else Some b
         | None => None
         end), st);
  StoreCommit tok b expiry st :=
    (None, mkMemstore (<[tok := (b, expiry)]> (ms_items st)) (ms_now st));
  Delete tok st :=
    (None, mkMemstore (delete tok (ms_items st)) (ms_now st))
|}.

(** A codec for the examples, where the content of a payload plays no
    part: it refuses a value of an unregistered type and an empty payload. *)
Definition has_unregistered (vals : gmap string value) : bool :=
  existsb (λ kv, match snd kv with VOther _ => true | _ => false end)
          (map_to_list vals).

#[global] Instance exampleCodec : Codec | 100 := {|
  gob_encode d vals :=
    if has_unregistered vals
    then Err "gob: type not registered for interface"
    else Ok [x01];
  gob_decode b :=
    match b with
    | [] => Err "EOF"
    | _ => Ok (time_Unix 86400, ∅)
    end;
  cookie_String c := cName c ++ "=" ++ cValue c
|}.

Definition exampleSession : Session := fst (NewSession 0).

(** A new request without cookies, on an empty store, at Unix time 1000 s,
    with a random source whose draw [n] gives the bytes n, n+1, ..., n+31. *)
Definition exampleEntropy (n : nat) : result (list byte) :=
  Ok (map (λ i, default x00 (Byte.of_nat i)) (seq n 32)).

Definition exampleWorld : world memstore :=
  mkWorld (mkMemstore ∅ (time_Unix 1000)) ∅ ∅ ∅ ∅
          (λ _, time_Unix 1000) 0 exampleEntropy 0.

(** A second manager, with its own context key and cookie name. *)
Definition secondSession : Session :=
  let s := fst (NewSession 1) in
  mkSession (IdleTimeout s) (Lifetime s)
            (mkSessionCookie "session2" "" true "/" true 2%Z false)
            (contextKey s).

(** The same manager with an idle timeout of twenty minutes. *)
Definition idleSession : Session :=
  mkSession (20 * 60 * Second)%Z (Lifetime exampleSession)
            (Cookie exampleSession) (contextKey exampleSession).

(** The token minted from draw 0 of the random source of the examples. *)
Definition exampleToken : string :=
  "AAECAwQFBgcICQoLDA0ODxAREhMUFRYXGBkaGxwdHh8".

(** The request of the examples once [Load] has run without a token. *)
Definition loadedWorld : world memstore :=
  snd (Load exampleSession "" exampleWorld).

(** The request of the examples after [Load] without a token and
    [Put "user" "alice"], under the manager with the idle timeout. *)
Definition modifiedWorld : world memstore :=
  snd ((Load idleSession "";; Put idleSession "user" (VString "alice"))
         exampleWorld).

(** A session that holds a value of an unregistered type cannot be
    encoded. *)
Definition unencodableWorld : world memstore :=
  snd ((Load exampleSession "";; Put exampleSession "obj" (VOther 7))
         exampleWorld).

(** The request of the examples once the session has been committed. *)
Definition committedWorld : world memstore :=
  snd (Commit idleSession modifiedWorld).

(** A request that presents a token whose payload in the store is empty. *)
Definition corruptWorld : world memstore :=
  mkWorld (mkMemstore {[exampleToken := ([], time_Unix 2000)]} (time_Unix 1000))
          ∅ ∅ {["session" := exampleToken]} ∅
          (λ _, time_Unix 1000) 0 exampleEntropy 0.

(** The configuration of the examples: nothing is skipped, and the checks
    are [LoadFromMiddleware] and [SaveFromMiddleware] of the manager. *)
Definition exampleConfig : SessionsConfig (world memstore) :=
  mkSessionsConfig (mret false)
                   (LoadFromMiddleware exampleSession)
                   (SaveFromMiddleware exampleSession).

(** A handler that puts a value in the session and saves nothing. *)
Definition exampleHandler : M (world memstore) (option error) :=
  Put exampleSession "user" (VString "alice");; mret None.

(** A request that presents a token stored with a payload that decodes. *)
Definition storedWorld : world memstore :=
  mkWorld (mkMemstore {[exampleToken := ([x01], time_Unix 2000)]} (time_Unix 1000))
          ∅ ∅ {["session" := exampleToken]} ∅
          (λ _, time_Unix 1000) 0 exampleEntropy 0.

(** The characters of a token: letters, digits, [-] and [_]. *)
Definition url_safe (c : ascii) : bool :=
  let n := nat_of_ascii c in
  ((65 <=? n)%nat && (n <=? 90)%nat) || ((97 <=? n)%nat && (n <=? 122)%nat)
  || ((48 <=? n)%nat && (n <=? 57)%nat) || (n =? 45)%nat || (n =? 95)%nat.

(** A codec for one payload: whatever it encodes it decodes to the
    session of [loadedWorld] with the value alice under the key user. *)
Definition aliceCodec : Codec := {|
  gob_encode d vals := Ok [x02];
  gob_decode b :=
    Ok (Add (time_Unix 1000) (Lifetime exampleSession),
        {["user" := VString "alice"]});
  cookie_String c := cName c ++ "=" ++ cValue c
|}.

(** A configuration whose skipper skips every request. *)
Definition skippingConfig : SessionsConfig (world memstore) :=
  mkSessionsConfig (mret true)
                   (LoadFromMiddleware exampleSession)
                   (SaveFromMiddleware exampleSession).

(** The process as the package starts: [DefaultSessionsConfig] holds the
    default skipper (tag 0), a session object around [NewSession()] with
    the [Initialize] of [EchoSessionSCS], and [DoCache] set; there is no
    cache yet and gob knows no type. *)
Definition defaultProcess : process :=
  mkProcess
    {[DefaultSessionsConfig := mkSessionsConfigObj (Some 0%nat) (Some 0%nat) true]}
    {[0%nat := mkISession (mkEchoSessionSCS exampleSession 0 0 []) Initialize]}
    None [].

(** The process with a config, at address 2, that names neither a skipper
    nor a session and does not ask for the cache. *)
Definition bareProcess : process :=
  mkProcess
    (<[2%nat := mkSessionsConfigObj None None false]> (p_configs defaultProcess))
    (p_sessions defaultProcess) None [].

(** A session object whose [Initialize] is overridden and fails. *)
Definition failingISession : ISession :=
  mkISession (mkEchoSessionSCS exampleSession 0 0 [])
             (λ e registered, (Some "testing panic", e, registered)).

(** The process with the config of TestMiddlewarePanic, at address 1: it
    holds this object and names no skipper. *)
Definition failingProcess : process :=
  mkProcess
    (<[1%nat := mkSessionsConfigObj None (Some 1%nat) false]>
       (p_configs defaultProcess))
    (<[1%nat := failingISession]> (p_sessions defaultProcess))
    None [].

(** The process with a config as the tests make them, at address 3: a
    session object of its own around a second manager, no skipper, and
    [DoCache] set. *)
Definition cachedProcess : process :=
  mkProcess
    (<[3%nat := mkSessionsConfigObj None (Some 3%nat) true]>
       (p_configs defaultProcess))
    (<[3%nat := mkISession (mkEchoSessionSCS secondSession 0 0 []) Initialize]>
       (p_sessions defaultProcess))
    None [].

(** * Properties *)

(** ** Running computations *)

Ltac unfold_M := unfold mbind, mret, M_bind, M_ret, gets, modify, panic in *.

(** Case analysis on the innermost scrutinee of the goal. *)
Ltac break_match :=
  match goal with
  | |- context [match ?x with _ => _ end] =>
      lazymatch x with
      | context [match _ with _ => _ end] => fail
      | _ => destruct x eqn:?
      end
  end.

Lemma bind_run {W A B} (m : M W A) (f : A → M W B) (w : W) :
  (m ≫= f) w =
  match m w with
  | (Ret a, w') => f a w'
  | (Panic msg, w') => (Panic msg, w')
  end.
Proof. reflexivity. Qed.

Lemma bind_ret {W A B} (m : M W A) (f : A → M W B) (w w' : W) (a : A) :
  m w = (Ret a, w') → (m ≫= f) w = f a w'.
Proof. intros E. rewrite bind_run, E. reflexivity. Qed.

Lemma bind_panic {W A B} (m : M W A) (f : A → M W B) (w w' : W) msg :
  m w = (Panic msg, w') → (m ≫= f) w = (Panic msg, w').
Proof. intros E. rewrite bind_run, E. reflexivity. Qed.

Section ManagerFacts.
Context {S : Type} `{!Store S} `{!Codec}.
Implicit Types (s : Session) (w : world S) (sd : sessionData) (p : nat).

Lemma getSessionDataFromContext_none s w :
  no_session s w →
  getSessionDataFromContext s w = (Panic no_session_panic, w).
Proof.
  intros Hno. unfold getSessionDataFromContext. rewrite bind_run.
  unfold ctx_Get, gets.
  destruct (w_scratch w !! contextKey s) as [[p|t]|] eqn:E; try reflexivity.
  exfalso. exact (Hno p E).
Qed.

Lemma getSessionDataFromContext_some s w p :
  w_scratch w !! contextKey s = Some (CSession p) →
  getSessionDataFromContext s w = (Ret p, w).
Proof.
  intros E. unfold getSessionDataFromContext. rewrite bind_run.
  unfold ctx_Get, gets. rewrite E. reflexivity.
Qed.

Lemma deref_some w p sd :
  w_heap w !! p = Some sd → deref p w = (Ret sd, w).
Proof. intros E. unfold deref. rewrite E. reflexivity. Qed.

(** Every operation starts by resolving the session: the two steps every
    proof below takes first. *)
Lemma resolve_run {A} s w p sd (k : nat → sessionData → M (world S) A) :
  session_at s w p sd →
  (p' ← getSessionDataFromContext s; sd' ← deref p'; k p' sd') w = k p sd w.
Proof.
  intros [Hc Hh].
  rewrite (bind_ret _ _ _ _ _ (getSessionDataFromContext_some _ _ _ Hc)).
  rewrite (bind_ret _ _ _ _ _ (deref_some _ _ _ Hh)). reflexivity.
Qed.

Lemma resolve_panic {A} s w (k : nat → M (world S) A) :
  no_session s w →
  (p ← getSessionDataFromContext s; k p) w = (Panic no_session_panic, w).
Proof. intros Hno. apply bind_panic, getSessionDataFromContext_none, Hno. Qed.

(** ** C8: no session in the context *)

(** C8. Every operation of the manager that resolves the session of the
    request (Commit, Destroy, Put, Get, Pop, Remove, Exists, Keys,
    RenewToken, Status, Token and the typed Get and Pop variants) panics
    with "scs: no session data in context", and leaves the world as it
    was, when the request holds no [sessionData] under the key of the
    manager. *)
Theorem operations_panic_without_session s w :
  no_session s w →
  let fails {A} (m : M (world S) A) := m w = (Panic no_session_panic, w) in
  fails (Commit s) ∧ fails (Destroy s) ∧ fails (RenewToken s) ∧
  fails (GetStatus s) ∧ fails (Token s) ∧ fails (Keys s) ∧
  (∀ key val, fails (Put s key val)) ∧
  (∀ key, fails (Get s key) ∧ fails (Pop s key) ∧ fails (Remove s key) ∧
          fails (Exists s key)) ∧
  (∀ key, fails (GetString s key) ∧ fails (GetBool s key) ∧
          fails (GetInt s key) ∧ fails (GetFloat s key) ∧
          fails (GetBytes s key) ∧ fails (GetTime s key)) ∧
  (∀ key, fails (PopString s key) ∧ fails (PopBool s key) ∧
          fails (PopInt s key) ∧ fails (PopFloat s key) ∧
          fails (PopBytes s key) ∧ fails (PopTime s key)).
Proof.
  intros Hno fails.
  assert (HGet : ∀ key, Get s key w = (Panic no_session_panic, w))
    by (intros; apply resolve_panic, Hno).
  assert (HPop : ∀ key, Pop s key w = (Panic no_session_panic, w))
    by (intros; apply resolve_panic, Hno).
  repeat split; intros; unfold fails;
    first [ apply resolve_panic, Hno
          | apply bind_panic, HGet
          | apply bind_panic, HPop ].
Qed.

End ManagerFacts.

(** A request in which [Load] has not run holds no session. *)
Lemma operations_panic_without_session_witness :
  no_session exampleSession exampleWorld ∧
  Commit exampleSession exampleWorld
    = (Panic no_session_panic, exampleWorld).
Proof.
  assert (Hno : no_session exampleSession exampleWorld)
    by (intros p; vm_compute; discriminate).
  split; [exact Hno|].
  exact (proj1 (operations_panic_without_session _ _ Hno)).
Defined.

(** ** C4: the typed Pop variants *)

Section PopFacts.
Context {S : Type} `{!Store S} `{!Codec}.
Implicit Types (s : Session) (w : world S) (sd : sessionData) (p : nat).

Lemma Pop_absent s key w p sd :
  session_at s w p sd → Values sd !! key = None →
  Pop s key w = (Ret VNil, w).
Proof.
  intros Hs Hk. unfold Pop. rewrite (resolve_run s w p sd _ Hs), Hk.
  reflexivity.
Qed.

Lemma Pop_present s key w p sd val :
  session_at s w p sd → Values sd !! key = Some val →
  Pop s key w = (Ret val, popped p sd key w).
Proof.
  intros Hs Hk. unfold Pop. rewrite (resolve_run s w p sd _ Hs), Hk.
  reflexivity.
Qed.

Lemma current_popped s key w p sd :
  session_at s w p sd →
  current s (popped p sd key w)
  = Some (set_status Modified (set_Values (delete key (Values sd)) sd)).
Proof.
  intros [Hc Hh]. unfold current, popped. simpl. rewrite Hc.
  apply lookup_insert_eq.
Qed.

(** C4, amended. A typed Pop on a key that is absent returns the zero
    value of its type and leaves the world, and so the status, as it was;
    on a key that is present it deletes the key, sets the status to
    Modified and returns the stored value, or the zero value of its type
    when the stored value has another dynamic type. *)
Theorem typed_Pop_Modified_iff_key_present s key w p sd :
  session_at s w p sd →
  (Values sd !! key = None →
     PopString s key w = (Ret "", w) ∧ PopBool s key w = (Ret false, w) ∧
     PopInt s key w = (Ret 0%Z, w) ∧ PopFloat s key w = (Ret (S754_zero false), w) ∧
     PopBytes s key w = (Ret None, w) ∧ PopTime s key w = (Ret time_zero, w)) ∧
  (∀ val, Values sd !! key = Some val →
     let w' := popped p sd key w in
     PopString s key w = (Ret (as_string val), w') ∧
     PopBool s key w = (Ret (as_bool val), w') ∧
     PopInt s key w = (Ret (as_int val), w') ∧
     PopFloat s key w = (Ret (as_float val), w') ∧
     PopBytes s key w = (Ret (as_bytes val), w') ∧
     PopTime s key w = (Ret (as_time val), w') ∧
     ∃ sd', current s w' = Some sd' ∧ status sd' = Modified ∧
            Values sd' = delete key (Values sd) ∧
            token sd' = token sd ∧ Deadline sd' = Deadline sd) ∧
  (∀ val,
     ((∀ x, val ≠ VString x) → as_string val = "") ∧
     ((∀ x, val ≠ VBool x) → as_bool val = false) ∧
     ((∀ x, val ≠ VInt x) → as_int val = 0%Z) ∧
     ((∀ x, val ≠ VFloat x) → as_float val = S754_zero false) ∧
     ((∀ x, val ≠ VBytes x) → as_bytes val = None) ∧
     ((∀ x, val ≠ VTime x) → as_time val = time_zero)).
Proof.
  intros Hs. split; [|split].
  - intros Hk. pose proof (Pop_absent s key w p sd Hs Hk) as HP.
    unfold PopString, PopBool, PopInt, PopFloat, PopBytes, PopTime.
    repeat split; rewrite (bind_ret _ _ _ _ _ HP); reflexivity.
  - intros val Hk w'. pose proof (Pop_present s key w p sd val Hs Hk) as HP.
    unfold PopString, PopBool, PopInt, PopFloat, PopBytes, PopTime.
    repeat split; try (rewrite (bind_ret _ _ _ _ _ HP); reflexivity).
    eexists. split; [apply (current_popped s key w p sd Hs)|].
    repeat split.
  - intros val. repeat split; intros Hne; destruct val; try reflexivity;
      exfalso; eapply Hne; reflexivity.
Qed.

End PopFacts.

Lemma loadedWorld_session :
  session_at exampleSession loadedWorld 0
    (mkSessionData (Add (time_Unix 1000) (Lifetime exampleSession))
                   Unmodified "" ∅).
Proof. split; vm_compute; reflexivity. Qed.

Lemma typed_Pop_Modified_iff_key_present_witness :
  PopString exampleSession "flash" loadedWorld
    = (Ret "", loadedWorld).
Proof.
  refine (proj1 (proj1 (typed_Pop_Modified_iff_key_present
    exampleSession "flash" loadedWorld 0 _ loadedWorld_session) _)).
  reflexivity.
Defined.

(** C4 as stated fails: a PopString on an absent key leaves an Unmodified
    session Unmodified. *)
Lemma PopString_absent_key_stays_Unmodified :
  let run := (PopString exampleSession "flash";;
              GetStatus exampleSession) loadedWorld in
  fst run = Ret Unmodified ∧ fst run ≠ Ret Modified.
Proof. split; [vm_compute; reflexivity | vm_compute; discriminate]. Qed.

(** ** C3 and C10: Commit *)

Section CommitFacts.
Context {S : Type} `{!Store S} `{!Codec}.
Implicit Types (s : Session) (w : world S) (sd : sessionData) (p : nat).
#[local] Arguments fill32 : simpl never.

Ltac unfold_Commit Hs :=
  unfold Commit; rewrite (resolve_run _ _ _ _ _ Hs);
  unfold generateToken, rand_Read, assign, deref, Store_Commit, time_Now, encode;
  unfold_M.

(** C3. A Commit that succeeds on the session [sd] of the request keeps a
    token that is not empty, without a draw from the random source, and
    mints one from the next draw only when the token is empty; the expiry
    it returns is min(deadline, now + IdleTimeout) when IdleTimeout > 0 and
    the deadline when IdleTimeout = 0, where now is the reading of the
    clock Commit takes; and the store is left as Store.Commit leaves it on
    that token, the encoded session and that expiry. *)
Theorem Commit_token_and_expiry s w p sd tok expiry w' :
  session_at s w p sd →
  Commit s w = (Ret (tok, expiry, None), w') →
  (token sd ≠ "" → tok = token sd ∧ w_draws w' = w_draws w) ∧
  (token sd = "" →
     ∃ b, w_entropy w (w_draws w) = Ok b ∧ tok = EncodeToString (fill32 b)) ∧
  ((0 < IdleTimeout s)%Z →
     expiry = Z.min (Deadline sd) (Add (w_clock w (w_ticks w)) (IdleTimeout s))) ∧
  (IdleTimeout s = 0%Z → expiry = Deadline sd) ∧
  (∃ b, encode sd = Ok b ∧
        StoreCommit tok b expiry (w_store w) = (None, w_store w')) ∧
  current s w' = Some (set_token tok sd).
Proof.
  intros Hs. pose proof Hs as [Hc Hh]. unfold_Commit Hs.
  assert (Hmin : ∀ now,
    (if Before (Add now (IdleTimeout s)) (Deadline sd)
     then Add now (IdleTimeout s) else Deadline sd)
    = Z.min (Deadline sd) (Add now (IdleTimeout s))).
  { intros now. unfold Before.
    destruct (Z.ltb_spec (Add now (IdleTimeout s)) (Deadline sd)); lia. }
  destruct (decide (token sd = "")) as [Ht|Ht]; cbn.
  - destruct (w_entropy w (w_draws w)) as [b|e]; cbn; [|intros; discriminate].
    rewrite lookup_insert_eq. cbn.
    destruct (gob_encode (Deadline sd) (Values sd)) as [pl|e]; cbn;
      [|intros; discriminate].
    destruct (0 <? IdleTimeout s)%Z eqn:Ei; cbn;
      (destruct (StoreCommit _ pl _ (w_store w)) as [[e|] st] eqn:Es; cbn;
       [intros; discriminate|]);
      intros Heq; injection Heq as <- <- <-;
      (split; [intros; contradiction|]);
      (split; [intros _; eexists; split; reflexivity|]);
      (split; [intros Hi; first [apply Hmin | apply Z.ltb_lt in Hi; congruence]|]);
      (split; [intros Hi; first [reflexivity | rewrite Hi in Ei; discriminate]|]);
      (split; [eexists; split; [reflexivity|]; cbn; exact Es|]);
      unfold current; cbn; rewrite Hc; apply lookup_insert_eq.
  - rewrite Hh. cbn.
    destruct (gob_encode (Deadline sd) (Values sd)) as [pl|e]; cbn;
      [|intros; discriminate].
    destruct (0 <? IdleTimeout s)%Z eqn:Ei; cbn;
      (destruct (StoreCommit _ pl _ (w_store w)) as [[e|] st] eqn:Es; cbn;
       [intros; discriminate|]);
      intros Heq; injection Heq as <- <- <-;
      (split; [intros _; split; reflexivity|]);
      (split; [intros; contradiction|]);
      (split; [intros Hi; first [apply Hmin | apply Z.ltb_lt in Hi; congruence]|]);
      (split; [intros Hi; first [reflexivity | rewrite Hi in Ei; discriminate]|]);
      (split; [eexists; split; [reflexivity|]; cbn; exact Es|]);
      unfold current; cbn; rewrite Hc, Hh; destruct sd; reflexivity.
Qed.

(** C10. When Commit fails because the token cannot be generated, or
    because the session cannot be encoded, it returns the empty token, the
    zero time and the error, and the store is as it was, whatever
    Store.Commit would have done. *)
Theorem Commit_failure_leaves_store s w p sd e :
  session_at s w p sd →
  (token sd = "" ∧ w_entropy w (w_draws w) = Err e) ∨
  ((token sd ≠ "" ∨ ∃ b, w_entropy w (w_draws w) = Ok b) ∧ encode sd = Err e) →
  fst (Commit s w) = Ret ("", time_zero, Some e) ∧
  w_store (snd (Commit s w)) = w_store w.
Proof.
  intros Hs Hfail. pose proof Hs as [Hc Hh]. unfold_Commit Hs.
  destruct Hfail as [[Ht He]|[Hgen He]].
  - destruct (decide (token sd = "")) as [_|?]; [|contradiction].
    cbn. rewrite He. cbn. split; reflexivity.
  - unfold encode in He.
    destruct (decide (token sd = "")) as [Ht|Ht]; cbn.
    + destruct Hgen as [?|[b Hb]]; [contradiction|].
      rewrite Hb. cbn. rewrite lookup_insert_eq. cbn. rewrite He. cbn.
      split; reflexivity.
    + rewrite Hh. cbn. rewrite He. cbn. split; reflexivity.
Qed.

End CommitFacts.

Lemma modifiedWorld_session :
  session_at idleSession modifiedWorld 0
    (mkSessionData (Add (time_Unix 1000) (Lifetime idleSession))
                   Modified "" {["user" := VString "alice"]}).
Proof. split; vm_compute; reflexivity. Qed.

Lemma Commit_token_and_expiry_witness :
  Commit idleSession modifiedWorld
    = (Ret (exampleToken, Add (time_Unix 1000) (20 * 60 * Second)%Z, None),
       snd (Commit idleSession modifiedWorld)) ∧
  Add (time_Unix 1000) (20 * 60 * Second)%Z
    = Z.min (Add (time_Unix 1000) (Lifetime idleSession))
            (Add (time_Unix 1000) (IdleTimeout idleSession)).
Proof.
  assert (HC : Commit idleSession modifiedWorld
               = (Ret (exampleToken,
                       Add (time_Unix 1000) (20 * 60 * Second)%Z, None),
                  snd (Commit idleSession modifiedWorld)))
    by (vm_compute; reflexivity).
  split; [exact HC|].
  refine (proj1 (proj2 (proj2 (Commit_token_and_expiry
    idleSession modifiedWorld 0 _ _ _ _ modifiedWorld_session HC))) _).
  vm_compute; reflexivity.
Defined.

Lemma unencodableWorld_session :
  session_at exampleSession unencodableWorld 0
    (mkSessionData (Add (time_Unix 1000) (Lifetime exampleSession))
                   Modified "" {["obj" := VOther 7]}).
Proof. split; vm_compute; reflexivity. Qed.

Lemma Commit_failure_leaves_store_witness :
  fst (Commit exampleSession unencodableWorld)
    = Ret ("", time_zero, Some "gob: type not registered for interface") ∧
  w_store (snd (Commit exampleSession unencodableWorld))
    = w_store unencodableWorld.
Proof.
  apply (Commit_failure_leaves_store exampleSession unencodableWorld 0 _ _
           unencodableWorld_session).
  right. split; [right; eexists; vm_compute; reflexivity|].
  vm_compute; reflexivity.
Defined.

(** ** C6: RenewToken *)

Section RenewFacts.
Context {S : Type} `{!Store S} `{!Codec}.
Implicit Types (s : Session) (w : world S) (sd : sessionData) (p : nat).
#[local] Arguments fill32 : simpl never.

(** C6. A RenewToken that succeeds on the session [sd] of the request
    leaves the store as Store.Delete leaves it on the old token, and so
    writes no token to it; the session gets the token generated from the
    next draw of the random source, the deadline now + Lifetime and the
    status Modified, and keeps its values. *)
Theorem RenewToken_success s w p sd w' :
  session_at s w p sd →
  RenewToken s w = (Ret None, w') →
  Delete (token sd) (w_store w) = (None, w_store w') ∧
  ∃ b, w_entropy w (w_draws w) = Ok b ∧
       current s w'
       = Some (mkSessionData (Add (w_clock w (w_ticks w)) (Lifetime s))
                             Modified (EncodeToString (fill32 b)) (Values sd)).
Proof.
  intros Hs. pose proof Hs as [Hc Hh].
  unfold RenewToken. rewrite (resolve_run _ _ _ _ _ Hs).
  unfold generateToken, rand_Read, assign, Store_Delete, time_Now. unfold_M.
  destruct (Delete (token sd) (w_store w)) as [[e|] st] eqn:Ed; cbn;
    [intros; discriminate|].
  destruct (w_entropy w (w_draws w)) as [b|e]; cbn; [|intros; discriminate].
  intros Heq. injection Heq as <-. split; [reflexivity|].
  exists b. split; [reflexivity|].
  unfold current. cbn. rewrite Hc. apply lookup_insert_eq.
Qed.

End RenewFacts.

Lemma committedWorld_session :
  session_at idleSession committedWorld 0
    (mkSessionData (Add (time_Unix 1000) (Lifetime idleSession))
                   Modified exampleToken {["user" := VString "alice"]}).
Proof. split; vm_compute; reflexivity. Qed.

(** On the reference store: the old token is gone and the new token,
    "AQIDBAUGBwgJCgsMDQ4PEBESExQVFhcYGRobHB0eHyA", is not in the store. *)
Lemma RenewToken_success_witness :
  let w' := snd (RenewToken idleSession committedWorld) in
  is_Some (ms_items (w_store committedWorld) !! exampleToken) ∧
  Delete exampleToken (w_store committedWorld) = (None, w_store w') ∧
  ms_items (w_store w') = ∅ ∧
  (token <$> current idleSession w')
    = Some "AQIDBAUGBwgJCgsMDQ4PEBESExQVFhcYGRobHB0eHyA".
Proof.
  intros w'.
  assert (HR : RenewToken idleSession committedWorld = (Ret None, w'))
    by (vm_compute; reflexivity).
  split; [vm_compute; eauto|].
  split; [exact (proj1 (RenewToken_success idleSession committedWorld 0 _ w'
                          committedWorld_session HR))|].
  split; vm_compute; reflexivity.
Defined.

(** ** C2: Destroy, and what Destroyed implies *)

Section DestroyFacts.
Context {S : Type} `{!Store S} `{!Codec}.
Implicit Types (s : Session) (w : world S) (sd : sessionData) (p : nat).
#[local] Arguments fill32 : simpl never.

Lemma delete_all_empty (vals : gmap string value) : delete_all vals = ∅.
Proof.
  apply map_eq. intros k. rewrite lookup_empty.
  destruct (delete_all vals !! k) as [v|] eqn:E; [|reflexivity].
  apply lookup_foldr_delete_Some in E as [Hnot Hk].
  exfalso. apply Hnot. apply list_elem_of_fmap. exists (k, v).
  split; [reflexivity|]. apply elem_of_map_to_list. exact Hk.
Qed.

Lemma Destroy_success s w p sd w' :
  session_at s w p sd →
  Destroy s w = (Ret None, w') →
  current s w'
    = Some (mkSessionData (Add (w_clock w (w_ticks w)) (Lifetime s))
                          Destroyed "" ∅) ∧
  Delete (token sd) (w_store w) = (None, w_store w').
Proof.
  intros Hs. pose proof Hs as [Hc Hh].
  unfold Destroy. rewrite (resolve_run _ _ _ _ _ Hs).
  unfold assign, Store_Delete, time_Now. unfold_M.
  destruct (Delete (token sd) (w_store w)) as [[e|] st] eqn:Ed; cbn;
    [intros; discriminate|].
  intros Heq. injection Heq as <-. split; [|reflexivity].
  unfold current. cbn. rewrite Hc, lookup_insert_eq, delete_all_empty.
  reflexivity.
Qed.

Ltac unfold_ops :=
  unfold exec, Load, newSessionData, decode, Commit, Destroy, RenewToken, Put,
    GetString, GetBool, GetInt, GetFloat, GetBytes, GetTime,
    PopString, PopBool, PopInt, PopFloat, PopBytes, PopTime,
    Get, Pop, Remove, Exists, Keys, GetStatus, Token,
    getSessionDataFromContext, generateToken, rand_Read, ctx_Get, ctx_Set,
    alloc, deref, assign, Store_Find, Store_Commit, Store_Delete, time_Now,
    encode;
  unfold_M.

(** One operation keeps a property [P] of all records of the heap, when
    [P] holds of every record that is not Destroyed and of the record
    Destroy leaves, and, for Commit, when [P] does not depend on the
    token. *)
Lemma exec_preserves (P : sessionData → Prop) s o w :
  (∀ sd, status sd ≠ Destroyed → P sd) →
  (∀ d, P (mkSessionData d Destroyed "" ∅)) →
  (o = OpCommit → ∀ sd t, P sd → P (set_token t sd)) →
  map_Forall (λ _, P) (w_heap w) →
  map_Forall (λ _, P) (w_heap (snd (exec s o w))).
Proof.
  intros Hlive Hdead Htok Hinv.
  destruct o; unfold_ops; cbn;
    repeat first [ progress cbn | rewrite lookup_insert_eq
                 | rewrite delete_all_empty | break_match ];
    repeat (apply map_Forall_insert_2; [|]); try assumption;
    try (apply Hlive; cbn; discriminate); try apply Hdead;
    try (apply Htok; [reflexivity|];
         match goal with
         | Hl : w_heap w !! ?q = Some ?x |- P ?x =>
             exact (map_Forall_lookup_1 (λ _, P) _ q x Hinv Hl)
         end).
Qed.

Lemma run_ops_preserves (P : sessionData → Prop) s ops w :
  (∀ sd, status sd ≠ Destroyed → P sd) →
  (∀ d, P (mkSessionData d Destroyed "" ∅)) →
  (OpCommit ∈ ops → ∀ sd t, P sd → P (set_token t sd)) →
  map_Forall (λ _, P) (w_heap w) →
  map_Forall (λ _, P) (w_heap (run_ops s ops w)).
Proof.
  intros Hlive Hdead. revert w.
  induction ops as [|o rest IH]; intros w Htok Hinv; [exact Hinv|].
  assert (Hstep : map_Forall (λ _, P) (w_heap (snd (exec s o w)))).
  { apply exec_preserves; try assumption.
    intros ->. apply Htok. left. }
  simpl. destruct (exec s o w) as [[[]|msg] w1]; [|exact Hstep].
  apply IH; [|exact Hstep].
  intros Hin. apply Htok. right. exact Hin.
Qed.

(** A Commit on a session that is not Destroyed leaves every record of
    the heap as the specification wants a destroyed record: it writes the
    token of the session of the request, and nothing else. *)
Lemma Commit_keeps_clean s w :
  is_Destroyed s w = false →
  map_Forall (λ _, destroyed_clean) (w_heap w) →
  map_Forall (λ _, destroyed_clean) (w_heap (snd (exec s OpCommit w))).
Proof.
  intros Hlive Hinv. unfold is_Destroyed, current in Hlive.
  unfold_ops; cbn;
    repeat first [ progress cbn | rewrite lookup_insert_eq | break_match ];
    repeat (apply map_Forall_insert_2; [|]); try assumption;
    intros Hd; cbn in Hd; rewrite Hd in Hlive; discriminate.
Qed.

Lemma run_ops_keeps_clean s ops w :
  no_Commit_on_Destroyed s ops w = true →
  map_Forall (λ _, destroyed_clean) (w_heap w) →
  map_Forall (λ _, destroyed_clean) (w_heap (run_ops s ops w)).
Proof.
  revert w. induction ops as [|o rest IH]; intros w Hok Hinv; [exact Hinv|].
  simpl in Hok. apply andb_prop in Hok as [Hhere Hrest].
  assert (Hstep : map_Forall (λ _, destroyed_clean)
                    (w_heap (snd (exec s o w)))).
  { destruct (is_Commit o) eqn:Ho.
    - destruct o; try discriminate Ho.
      apply Commit_keeps_clean; [|exact Hinv].
      destruct (is_Destroyed s w); [discriminate Hhere|reflexivity].
    - apply exec_preserves; try assumption.
      + intros sd Hne Hd. contradiction.
      + intros d _. split; reflexivity.
      + intros ->. discriminate Ho. }
  simpl. destruct (exec s o w) as [[[]|msg] w1]; [|exact Hstep].
  apply IH; [exact Hrest|exact Hstep].
Qed.

Lemma no_Commit_no_Commit_on_Destroyed s ops w :
  OpCommit ∉ ops → no_Commit_on_Destroyed s ops w = true.
Proof.
  revert w. induction ops as [|o rest IH]; intros w Hno; [reflexivity|].
  simpl. apply not_elem_of_cons in Hno as [Ho Hrest].
  apply andb_true_intro. split.
  - destruct o; try reflexivity. contradiction.
  - destruct (exec s o w) as [[[]|msg] w1]; [|reflexivity].
    apply IH. exact Hrest.
Qed.

(** C2, amended. After a Destroy that succeeds the session has the status
    Destroyed, the empty token, no values and the deadline now + Lifetime.
    Over any sequence of operations of the manager, on a heap where it
    holds at the start, a Destroyed record has no values; and it has the
    empty token as well when no Commit of the sequence runs on the session
    while it is Destroyed, in particular when the sequence holds no
    Commit. *)
Theorem Destroy_resets_and_Destroyed_is_empty s :
  (∀ w p sd w',
     session_at s w p sd → Destroy s w = (Ret None, w') →
     current s w'
     = Some (mkSessionData (Add (w_clock w (w_ticks w)) (Lifetime s))
                           Destroyed "" ∅)) ∧
  (∀ ops w,
     map_Forall (λ _, destroyed_empty) (w_heap w) →
     map_Forall (λ _, destroyed_empty) (w_heap (run_ops s ops w))) ∧
  (∀ ops w,
     no_Commit_on_Destroyed s ops w = true →
     map_Forall (λ _, destroyed_clean) (w_heap w) →
     map_Forall (λ _, destroyed_clean) (w_heap (run_ops s ops w))) ∧
  (∀ ops w,
     OpCommit ∉ ops →
     map_Forall (λ _, destroyed_clean) (w_heap w) →
     map_Forall (λ _, destroyed_clean) (w_heap (run_ops s ops w))).
Proof.
  split; [|split; [|split]].
  - intros w p sd w' Hs HD. exact (proj1 (Destroy_success s w p sd w' Hs HD)).
  - intros ops w. apply run_ops_preserves.
    + intros sd Hne Hd. contradiction.
    + intros d _. reflexivity.
    + intros _ sd t Hsd. exact Hsd.
  - intros ops w. apply run_ops_keeps_clean.
  - intros ops w Hno. apply run_ops_keeps_clean.
    apply no_Commit_no_Commit_on_Destroyed. exact Hno.
Qed.

End DestroyFacts.

(** A session is committed and then destroyed: the sequence holds a
    Commit, and the record ends Destroyed with the empty token. *)
Lemma Destroy_resets_and_Destroyed_is_empty_witness :
  let ops := [OpLoad ""; OpPut "user" (VString "alice"); OpCommit; OpDestroy;
              OpGet "user"] in
  current idleSession (snd (Destroy idleSession committedWorld))
    = Some (mkSessionData (Add (time_Unix 1000) (Lifetime idleSession))
                          Destroyed "" ∅) ∧
  OpCommit ∈ ops ∧
  is_Destroyed idleSession (run_ops idleSession ops exampleWorld) = true ∧
  map_Forall (λ _, destroyed_clean)
    (w_heap (run_ops idleSession ops exampleWorld)).
Proof.
  intros ops. split; [|split; [|split]].
  - refine (proj1 (Destroy_resets_and_Destroyed_is_empty idleSession)
              committedWorld 0 _ _ committedWorld_session _).
    vm_compute; reflexivity.
  - unfold ops. set_solver.
  - vm_compute; reflexivity.
  - apply (proj1 (proj2 (proj2 (Destroy_resets_and_Destroyed_is_empty
                                 idleSession)))).
    + vm_compute; reflexivity.
    + apply map_Forall_empty.
Defined.

(** C2 as stated fails: a Commit on a destroyed session mints a token and
    leaves the status Destroyed. *)
Lemma Commit_after_Destroy_keeps_Destroyed :
  let w := run_ops exampleSession [OpLoad ""; OpDestroy; OpCommit] exampleWorld in
  ∃ sd, current exampleSession w = Some sd ∧
        status sd = Destroyed ∧ token sd = exampleToken ∧
        ¬ destroyed_clean sd.
Proof.
  eexists. split; [vm_compute; reflexivity|].
  split; [reflexivity|]. split; [reflexivity|].
  intros Hc. destruct (Hc eq_refl) as [Ht _]. discriminate Ht.
Qed.

(** ** C7: Load and a payload that does not decode *)

Section LoadFacts.
Context {S : Type} `{!Store S} `{!Codec}.
Implicit Types (s : Session) (w : world S) (sd : sessionData) (p : nat).

Lemma fresh_not_allocated (h : gmap nat sessionData) : h !! fresh (dom h) = None.
Proof. apply not_elem_of_dom, is_fresh. Qed.

Ltac unfold_Load :=
  unfold Load, newSessionData, decode, ctx_Get, ctx_Set, alloc, deref, assign,
    Store_Find, time_Now;
  unfold_M.

(** C7. On a request that holds no session, with a token that is not
    empty and that Store.Find finds, a payload that does not decode makes
    Load return the decode error and no record, and put nothing in the
    scratch map of the request. Load mints a fresh session exactly when
    the token is empty or Store.Find reports it as not found. *)
Theorem Load_surfaces_decode_error s tok w :
  no_session s w →
  (∀ b st e,
     tok ≠ "" → Find tok (w_store w) = (Ok (Some b), st) →
     gob_decode b = Err e →
     fst (Load s tok w) = Ret (Err e) ∧
     w_scratch (snd (Load s tok w)) = w_scratch w ∧
     ¬ mints_fresh s tok w) ∧
  (mints_fresh s tok w ↔
     tok = "" ∨ ∃ st, Find tok (w_store w) = (Ok None, st)).
Proof.
  intros Hno.
  assert (Hmint : mints_fresh s tok w →
                  tok = "" ∨ ∃ st, Find tok (w_store w) = (Ok None, st)).
  { intros (p & Hr & Hold & Hnew). revert Hr Hnew. unfold_Load.
    destruct (w_scratch w !! contextKey s) as [[q|t]|] eqn:Ec;
      [exfalso; exact (Hno q Ec)| |];
      (destruct (decide (tok = "")) as [Ht|Ht]; [left; exact Ht|right]);
      revert Hr Hnew; cbn;
      (destruct (Find tok (w_store w)) as [[[b|]|e] st] eqn:Ef; cbn;
       [|intros; eexists; reflexivity|intros; discriminate]);
      rewrite lookup_insert_eq; cbn;
      (destruct (gob_decode b) as [[d v]|e]; cbn; [|intros; discriminate]);
      (destruct (0 <? IdleTimeout s)%Z; cbn;
       rewrite ?lookup_insert_eq; cbn;
       intros Hr; injection Hr as <-;
       rewrite ?lookup_insert_eq; intros Hnew; injection Hnew as _ Htok;
       try discriminate; contradiction). }
  split.
  - intros b st e Ht Hf Hd.
    assert (Hrun : fst (Load s tok w) = Ret (Err e) ∧
                   w_scratch (snd (Load s tok w)) = w_scratch w).
    { unfold_Load.
      destruct (w_scratch w !! contextKey s) as [[q|t]|] eqn:Ec;
        [exfalso; exact (Hno q Ec)| |];
        (destruct (decide (tok = "")) as [?|_]; [contradiction|]);
        cbn; rewrite Hf; cbn; rewrite lookup_insert_eq; cbn; rewrite Hd; cbn;
        split; reflexivity. }
    destruct Hrun as [Hr Hs]. split; [exact Hr|]. split; [exact Hs|].
    intros Hm. destruct (Hmint Hm) as [?|[st' Hf']]; [contradiction|].
    rewrite Hf in Hf'. discriminate.
  - split; [exact Hmint|].
    intros Hcase. exists (fresh (dom (w_heap w))).
    split; [|split; [apply fresh_not_allocated|]]; unfold_Load;
      (destruct (w_scratch w !! contextKey s) as [[q|t]|] eqn:Ec;
       [exfalso; exact (Hno q Ec)| |]);
      (destruct (decide (tok = "")) as [Ht|Ht];
       [cbn; rewrite ?lookup_insert_eq; reflexivity|]);
      (destruct Hcase as [?|[st Hf]]; [contradiction|]);
      cbn; rewrite Hf; cbn; rewrite ?lookup_insert_eq; reflexivity.
Qed.

End LoadFacts.

Lemma Load_surfaces_decode_error_witness :
  no_session exampleSession corruptWorld ∧
  fst (Load exampleSession exampleToken corruptWorld) = Ret (Err "EOF") ∧
  w_scratch (snd (Load exampleSession exampleToken corruptWorld)) = ∅.
Proof.
  assert (Hno : no_session exampleSession corruptWorld)
    by (intros p; vm_compute; discriminate).
  split; [exact Hno|].
  destruct (proj1 (Load_surfaces_decode_error exampleSession exampleToken
                     corruptWorld Hno)
              [] (w_store corruptWorld) "EOF") as (Hr & Hs & _).
  - discriminate.
  - vm_compute; reflexivity.
  - reflexivity.
  - split; [exact Hr|exact Hs].
Defined.

(** ** C9: the caching headers *)

Section HeaderFacts.
Context {S : Type} `{!Store S} `{!Codec}.
Implicit Types (s : Session) (w : world S).
#[local] Arguments CanonicalMIMEHeaderKey : simpl never.

Lemma existsb_eqb_count (l : list string) (v : string) :
  existsb (λ h, String.eqb h v) l = negb (count_occ string_dec l v =? 0)%nat.
Proof.
  induction l as [|h l IH]; [reflexivity|]. simpl.
  destruct (string_dec h v) as [->|Hne].
  - rewrite String.eqb_refl. reflexivity.
  - apply String.eqb_neq in Hne. rewrite Hne. exact IH.
Qed.

Lemma Header_Add_occurrences key key' x v w :
  CanonicalMIMEHeaderKey key = key →
  occurrences key' v (snd (Header_Add key x w))
  = if decide (key = key')
    then (occurrences key' v w + (if string_dec x v then 1 else 0))%nat
    else occurrences key' v w.
Proof.
  intros Hcan. unfold occurrences, Header_Add, modify. cbn. rewrite Hcan.
  destruct (decide (key = key')) as [<-|Hne].
  - rewrite lookup_insert_eq. cbn. rewrite count_occ_app. cbn.
    destruct (string_dec x v); reflexivity.
  - rewrite lookup_insert_ne by exact Hne. reflexivity.
Qed.

Lemma AddHeaderIfMissing_run key x w :
  AddHeaderIfMissing key x w
  = if (occurrences key x w =? 0)%nat then Header_Add key x w else (Ret tt, w).
Proof.
  unfold AddHeaderIfMissing, Header_index. unfold_M.
  rewrite existsb_eqb_count. unfold occurrences.
  destruct (count_occ string_dec (default [] (w_headers w !! key)) x =? 0)%nat;
    reflexivity.
Qed.

Lemma AddHeaderIfMissing_occurrences key key' x v w :
  CanonicalMIMEHeaderKey key = key →
  occurrences key' v (snd (AddHeaderIfMissing key x w))
  = if decide (key = key' ∧ x = v) then Nat.max 1 (occurrences key' v w)
    else occurrences key' v w.
Proof.
  intros Hcan. rewrite AddHeaderIfMissing_run.
  destruct (Nat.eqb_spec (occurrences key x w) 0) as [Hz|Hnz].
  - rewrite (Header_Add_occurrences key key' x v w Hcan).
    destruct (decide (key = key')) as [<-|Hne].
    + destruct (string_dec x v) as [<-|Hxv].
      * rewrite decide_True by (split; reflexivity). rewrite Hz. reflexivity.
      * rewrite decide_False by (intros [_ ?]; contradiction). lia.
    + rewrite decide_False by (intros [? _]; contradiction). reflexivity.
  - cbn. destruct (decide (key = key' ∧ x = v)) as [[<- <-]|_]; [lia|reflexivity].
Qed.

Lemma sessionCookie_headers s tok expiry w :
  ∃ c w1, sessionCookie s tok expiry w = (Ret c, w1) ∧ w_headers w1 = w_headers w.
Proof.
  unfold sessionCookie, time_Now. unfold_M.
  destruct (IsZero expiry); [|destruct (Persist (Cookie s))];
    eexists _, _; split; reflexivity.
Qed.

(** One save: the two caching headers are present once if they were
    absent, and as often as before otherwise. *)
Lemma WriteSessionCookie_occurrences s tok expiry w :
  ∃ w', WriteSessionCookie s tok expiry w = (Ret tt, w') ∧
    occurrences "Cache-Control" no_cache_Set_Cookie w'
      = Nat.max 1 (occurrences "Cache-Control" no_cache_Set_Cookie w) ∧
    occurrences "Vary" "Cookie" w' = Nat.max 1 (occurrences "Vary" "Cookie" w).
Proof.
  destruct (sessionCookie_headers s tok expiry w) as (c & w1 & Hc & Hh).
  unfold WriteSessionCookie. rewrite (bind_ret _ _ _ _ _ Hc).
  set (w2 := snd (Header_Add "Set-Cookie" (cookie_String c) w1)).
  set (w3 := snd (AddHeaderIfMissing "Cache-Control" no_cache_Set_Cookie w2)).
  set (w4 := snd (AddHeaderIfMissing "Vary" "Cookie" w3)).
  assert (H3 : AddHeaderIfMissing "Cache-Control" no_cache_Set_Cookie w2 = (Ret tt, w3)).
  { unfold w3. rewrite AddHeaderIfMissing_run.
    destruct (occurrences _ _ w2 =? 0)%nat; reflexivity. }
  assert (H4 : AddHeaderIfMissing "Vary" "Cookie" w3 = (Ret tt, w4)).
  { unfold w4. rewrite AddHeaderIfMissing_run.
    destruct (occurrences _ _ w3 =? 0)%nat; reflexivity. }
  exists w4. split.
  - rewrite bind_run. fold w2. change (Header_Add "Set-Cookie" (cookie_String c) w1)
      with (Ret tt, w2). cbn beta iota.
    rewrite (bind_ret _ _ _ _ _ H3). exact H4.
  - assert (H1 : ∀ key v, key ≠ "Set-Cookie" →
              occurrences key v w2 = occurrences key v w).
    { intros key v Hne. unfold w2.
      rewrite (Header_Add_occurrences "Set-Cookie" key _ v w1 eq_refl).
      rewrite decide_False by (intros Heq; apply Hne; symmetry; exact Heq).
      unfold occurrences. rewrite Hh. reflexivity. }
    split.
    + unfold w4.
      rewrite (AddHeaderIfMissing_occurrences "Vary" "Cache-Control" _ _ w3 eq_refl).
      rewrite decide_False by (intros [? _]; discriminate).
      unfold w3.
      rewrite (AddHeaderIfMissing_occurrences "Cache-Control" "Cache-Control"
                 _ _ w2 eq_refl).
      rewrite decide_True by (split; reflexivity).
      rewrite H1 by discriminate. reflexivity.
    + unfold w4.
      rewrite (AddHeaderIfMissing_occurrences "Vary" "Vary" _ _ w3 eq_refl).
      rewrite decide_True by (split; reflexivity).
      unfold w3.
      rewrite (AddHeaderIfMissing_occurrences "Cache-Control" "Vary"
                 _ _ w2 eq_refl).
      rewrite decide_False by (intros [? _]; discriminate).
      rewrite H1 by discriminate. reflexivity.
Qed.

(** C9. After any sequence of one or more WriteSessionCookie calls on a
    request, by any managers, each of the two caching headers, Cache-Control
    with the value no-cache="Set-Cookie" and Vary with the value Cookie, is
    on the response once if it was absent before and as often as before
    otherwise: it is added only when that exact value is not yet present.
    So a response that held each at most once (none, for a new response)
    holds exactly one of each. *)
Theorem caching_headers_written_once calls w :
  calls ≠ [] →
  ∃ w', write_all calls w = (Ret tt, w') ∧
    occurrences "Cache-Control" no_cache_Set_Cookie w'
      = Nat.max 1 (occurrences "Cache-Control" no_cache_Set_Cookie w) ∧
    occurrences "Vary" "Cookie" w' = Nat.max 1 (occurrences "Vary" "Cookie" w) ∧
    ((occurrences "Cache-Control" no_cache_Set_Cookie w ≤ 1)%nat →
     occurrences "Cache-Control" no_cache_Set_Cookie w' = 1%nat) ∧
    ((occurrences "Vary" "Cookie" w ≤ 1)%nat →
     occurrences "Vary" "Cookie" w' = 1%nat).
Proof.
  revert w. induction calls as [|[[s tok] expiry] rest IH]; intros w Hne;
    [contradiction|].
  destruct (WriteSessionCookie_occurrences s tok expiry w) as (w1 & Hw & Hc1 & Hv1).
  simpl. rewrite (bind_ret _ _ _ _ _ Hw).
  destruct rest as [|call rest'].
  - exists w1. split; [reflexivity|].
    rewrite Hc1, Hv1. repeat split; lia.
  - destruct (IH w1 ltac:(discriminate)) as (w' & Hrun & Hc & Hv & _).
    exists w'. split; [exact Hrun|].
    rewrite Hc, Hv, Hc1, Hv1. repeat split; lia.
Qed.

End HeaderFacts.

(** Two managers save on one new response, the second one twice. *)
Lemma caching_headers_written_once_witness :
  let calls := [(exampleSession, exampleToken, time_Unix 2000);
                (secondSession, "", time_zero);
                (secondSession, exampleToken, time_Unix 3000)] in
  ∃ w', write_all calls exampleWorld = (Ret tt, w') ∧
    occurrences "Cache-Control" no_cache_Set_Cookie w' = 1%nat ∧
    occurrences "Vary" "Cookie" w' = 1%nat.
Proof.
  intros calls.
  destruct (caching_headers_written_once calls exampleWorld)
    as (w' & Hrun & _ & _ & Hc & Hv); [discriminate|].
  exists w'. split; [exact Hrun|]. split.
  - apply Hc. vm_compute. lia.
  - apply Hv. vm_compute. lia.
Defined.

(** ** C5: the Expires and MaxAge of the session cookie *)

Section CookieFacts.
Context {S : Type} `{!Store S} `{!Codec}.
Implicit Types (s : Session) (w : world S).

(** With the zero time as expiry the cookie expires at Unix time 1 and has
    MaxAge -1, whatever Persist is. *)
Lemma sessionCookie_zero_expiry s tok w :
  ∃ c, sessionCookie s tok time_zero w = (Ret c, w) ∧
       cExpires c = time_Unix 1 ∧ cMaxAge c = (-1)%Z ∧ cValue c = tok.
Proof.
  unfold sessionCookie. change (IsZero time_zero) with true.
  eexists. split; [reflexivity|]. repeat split.
Qed.

(** With another expiry and Persist set, Expires is the whole second that
    follows the second of the expiry, and MaxAge is computed in float64
    from the time left at the next reading of the clock. *)
Lemma sessionCookie_persist s tok expiry w :
  expiry ≠ time_zero → Persist (Cookie s) = true →
  ∃ c, fst (sessionCookie s tok expiry w) = Ret c ∧
       cExpires c = time_Unix (Unix expiry + 1) ∧
       Unix (cExpires c) = Unix (Add expiry Second) ∧
       cMaxAge c = int_of_f64 (f64_add (Seconds (Sub expiry (w_clock w (w_ticks w))))
                                       (f64_of_int 1)).
Proof.
  intros Hnz Hp. unfold sessionCookie, time_Now. unfold_M.
  assert (Hz : IsZero expiry = false) by (apply Z.eqb_neq; exact Hnz).
  rewrite Hz, Hp. cbn. eexists. split; [reflexivity|]. cbn.
  repeat split. unfold Unix, time_Unix, Add, Second.
  rewrite Z.div_mul by discriminate.
  replace (expiry + 1000000000)%Z with (expiry + 1 * 1000000000)%Z by lia.
  rewrite Z.div_add by discriminate. reflexivity.
Qed.

End CookieFacts.

(** C5, where the code departs from it. With Persist set and an expiry
    exactly ten seconds after the reading of the clock, the time left
    rounded up is 10 seconds, and WriteSessionCookie gives the cookie the
    MaxAge 11. *)
Theorem MaxAge_of_whole_seconds_is_one_more :
  let expiry := time_Unix 1010 in
  let now := w_clock exampleWorld (w_ticks exampleWorld) in
  Persist (Cookie exampleSession) = true ∧
  Sub expiry now = (10 * Second)%Z ∧
  ceil_seconds (Sub expiry now) = 10%Z ∧
  (cMaxAge <$> match fst (sessionCookie exampleSession exampleToken expiry
                            exampleWorld) with
               | Ret c => Some c
               | Panic _ => None
               end) = Some 11%Z.
Proof. repeat split; vm_compute; reflexivity. Qed.

(** One nanosecond more, or a day and a half, and the MaxAge is the time
    left rounded up. *)
Example MaxAge_rounds_up_between_seconds :
  let MaxAge d := int_of_f64 (f64_add (Seconds d) (f64_of_int 1)) in
  MaxAge (10 * Second + 1)%Z = ceil_seconds (10 * Second + 1)%Z ∧
  MaxAge (129600 * Second + 500000000)%Z
    = ceil_seconds (129600 * Second + 500000000)%Z.
Proof. split; vm_compute; reflexivity. Qed.

(** ** C1: the order of the steps of the middleware *)

(** C1, amended. On a request the Skipper does not skip, the middleware
    runs the Skipper check, then LoadCheck, then SaveCheck, then the user
    handler, and stops after the first of LoadCheck and SaveCheck that
    fails, returning its error behind the text of the middleware: after a
    failing LoadCheck neither SaveCheck nor the handler runs, after a
    failing SaveCheck the handler does not run. SaveCheck runs before the
    user handler, on the request as LoadCheck left it: the outcome is that
    of the handler run on the request as SaveCheck left it, and SaveCheck
    sees none of the mutations the handler makes. *)
Theorem middleware_saves_before_handler {W} (config : SessionsConfig W)
  (next : M W (option error)) (w w0 : W) :
  Skipper config w = (Ret false, w0) →
  (steps_taken config next w = [SkipperStep; LoadCheckStep] ∨
   steps_taken config next w = [SkipperStep; LoadCheckStep; SaveCheckStep] ∨
   steps_taken config next w
     = [SkipperStep; LoadCheckStep; SaveCheckStep; HandlerStep]) ∧
  (∀ w1 w2,
     LoadCheck config w0 = (Ret None, w1) →
     SaveCheck config w1 = (Ret None, w2) →
     steps_taken config next w
       = [SkipperStep; LoadCheckStep; SaveCheckStep; HandlerStep] ∧
     SessionsWithConfig config next w = next w2) ∧
  (∀ e w1,
     LoadCheck config w0 = (Ret (Some e), w1) →
     steps_taken config next w = [SkipperStep; LoadCheckStep] ∧
     SessionsWithConfig config next w
       = (Ret (Some ("could not load the session in SessionsWithConfig; " ++ e)),
          w1)) ∧
  (∀ e w1 w2,
     LoadCheck config w0 = (Ret None, w1) →
     SaveCheck config w1 = (Ret (Some e), w2) →
     steps_taken config next w = [SkipperStep; LoadCheckStep; SaveCheckStep] ∧
     SessionsWithConfig config next w
       = (Ret (Some ("could not save the session in SessionsWithConfig; " ++ e)),
          w2)).
Proof.
  intros Hskip. unfold steps_taken, SessionsWithConfig, logged_config, logged.
  unfold_M. cbn. rewrite Hskip. cbn. split; [|split; [|split]].
  - destruct (LoadCheck config w0) as [[[e|]|msg] w1]; cbn; auto.
    destruct (SaveCheck config w1) as [[[e|]|msg] w2]; cbn; auto.
    destruct (next w2) as [r w3]. cbn. auto.
  - intros w1 w2 HL HS. rewrite HL. cbn. rewrite HS. cbn.
    destruct (next w2) as [r w3]. cbn. split; reflexivity.
  - intros e w1 HL. rewrite HL. cbn. split; reflexivity.
  - intros e w1 w2 HL HS. rewrite HL. cbn. rewrite HS. cbn.
    split; reflexivity.
Qed.

Lemma middleware_saves_before_handler_witness :
  steps_taken exampleConfig exampleHandler exampleWorld
    = [SkipperStep; LoadCheckStep; SaveCheckStep; HandlerStep] ∧
  steps_taken exampleConfig exampleHandler corruptWorld
    = [SkipperStep; LoadCheckStep] ∧
  fst (SessionsWithConfig exampleConfig exampleHandler corruptWorld)
    = Ret (Some ("could not load the session in SessionsWithConfig; "
                 ++ "func s.Load failed in Session.LoadFromMiddleware; "
                 ++ "EOF")).
Proof.
  split.
  - refine (proj1 (proj1 (proj2 (middleware_saves_before_handler exampleConfig
              exampleHandler exampleWorld exampleWorld eq_refl))
            (snd (LoadCheck exampleConfig exampleWorld))
            (snd (SaveCheck exampleConfig
                    (snd (LoadCheck exampleConfig exampleWorld)))) _ _));
      vm_compute; reflexivity.
  - destruct (proj1 (proj2 (proj2 (middleware_saves_before_handler exampleConfig
                exampleHandler corruptWorld corruptWorld eq_refl)))
              ("func s.Load failed in Session.LoadFromMiddleware; " ++ "EOF")
              (snd (LoadCheck exampleConfig corruptWorld)))
      as [Hsteps Hret].
    + vm_compute; reflexivity.
    + split; [exact Hsteps|]. rewrite Hret. reflexivity.
Defined.

(** C1 as stated fails: the steps are not taken in the order Skipper,
    LoadCheck, handler, SaveCheck, and what the handler put in the session
    is neither committed to the store nor announced in a cookie. *)
Lemma handler_runs_after_SaveCheck :
  let w' := snd (SessionsWithConfig exampleConfig exampleHandler exampleWorld) in
  steps_taken exampleConfig exampleHandler exampleWorld
    ≠ [SkipperStep; LoadCheckStep; HandlerStep; SaveCheckStep] ∧
  (status <$> current exampleSession w') = Some Modified ∧
  ms_items (w_store w') = ∅ ∧
  w_headers w' !! "Set-Cookie" = None.
Proof.
  split; [vm_compute; discriminate|].
  repeat split; vm_compute; reflexivity.
Qed.

(** * Further properties of the manager *)

(** Unfolding the operations of the manager down to the world. *)
Ltac unfold_manager :=
  unfold exec, Load, newSessionData, decode, Commit, Destroy, RenewToken, Put,
    GetString, GetBool, GetInt, GetFloat, GetBytes, GetTime,
    PopString, PopBool, PopInt, PopFloat, PopBytes, PopTime,
    Get, Pop, Remove, Exists, Keys, GetStatus, Token,
    getSessionDataFromContext, generateToken, rand_Read, ctx_Get, ctx_Set,
    alloc, deref, assign, Store_Find, Store_Commit, Store_Delete, time_Now,
    encode;
  unfold_M.

(** ** The values map: Put, Get, Exists, Remove, Keys *)

Section ValuesFacts.
Context {S : Type} `{!Store S} `{!Codec}.
Implicit Types (s : Session) (w : world S) (sd : sessionData) (p : nat).

(** X1. With a session in the request, Put stores the value under the key
    and sets the status to Modified: afterwards Get returns the value for
    that key, Exists reports the key (also when the value is nil), every
    other key reads as before, and the token, the deadline and the store
    are as they were. *)
Theorem Put_then_Get s key val w p sd :
  session_at s w p sd →
  ∃ w', Put s key val w = (Ret tt, w') ∧
    Get s key w' = (Ret val, w') ∧
    Exists s key w' = (Ret true, w') ∧
    (∀ key', key' ≠ key →
       Get s key' w' = (Ret (default VNil (Values sd !! key')), w')) ∧
    current s w'
      = Some (mkSessionData (Deadline sd) Modified (token sd)
                            (<[key := val]> (Values sd))) ∧
    w_store w' = w_store w.
Proof.
  intros Hs. pose proof Hs as [Hc Hh].
  set (sd' := mkSessionData (Deadline sd) Modified (token sd)
                            (<[key := val]> (Values sd))).
  set (w' := set_heap (<[p := sd']> (w_heap w)) w).
  assert (Hs' : session_at s w' p sd').
  { split; [exact Hc|]. unfold w'. cbn. apply lookup_insert_eq. }
  exists w'. split; [|split; [|split; [|split; [|split]]]].
  - unfold Put. rewrite (resolve_run _ _ _ _ _ Hs). reflexivity.
  - unfold Get. rewrite (resolve_run _ _ _ _ _ Hs'). unfold_M. cbn.
    rewrite lookup_insert_eq. reflexivity.
  - unfold Exists. rewrite (resolve_run _ _ _ _ _ Hs'). unfold_M. cbn.
    rewrite lookup_insert_eq. rewrite bool_decide_eq_true_2 by eauto.
    reflexivity.
  - intros key' Hne. unfold Get. rewrite (resolve_run _ _ _ _ _ Hs').
    unfold_M. cbn. rewrite lookup_insert_ne by (intros ->; contradiction).
    reflexivity.
  - unfold current. destruct Hs' as [-> ->]. reflexivity.
  - reflexivity.
Qed.

(** X2. The reading operations, Get, Exists, Keys, Status, Token and the
    typed Get variants, leave the world as it was, with or without a
    session in the request: none of them changes the status, the values,
    the store or the headers. *)
Theorem reads_leave_world_unchanged s w :
  let same {A} (m : M (world S) A) := snd (m w) = w in
  same (GetStatus s) ∧ same (Token s) ∧ same (Keys s) ∧
  (∀ key, same (Get s key) ∧ same (Exists s key) ∧
          same (GetString s key) ∧ same (GetBool s key) ∧
          same (GetInt s key) ∧ same (GetFloat s key) ∧
          same (GetBytes s key) ∧ same (GetTime s key)).
Proof.
  intros same. unfold same.
  repeat split; intros; unfold_manager; cbn;
    repeat first [ progress cbn | break_match ]; reflexivity.
Qed.

(** X3. Remove on a key that is absent changes nothing, the status
    included; on a key that is present it deletes the key and sets the
    status to Modified, after which Exists reports false and Get returns
    nil for it, and every other key reads as before. *)
Theorem Remove_present_or_absent s key w p sd :
  session_at s w p sd →
  (Values sd !! key = None → Remove s key w = (Ret tt, w)) ∧
  (is_Some (Values sd !! key) →
     ∃ w', Remove s key w = (Ret tt, w') ∧
       Exists s key w' = (Ret false, w') ∧
       Get s key w' = (Ret VNil, w') ∧
       (∀ key', key' ≠ key →
          Get s key' w' = (Ret (default VNil (Values sd !! key')), w')) ∧
       current s w'
         = Some (mkSessionData (Deadline sd) Modified (token sd)
                               (delete key (Values sd)))).
Proof.
  intros Hs. pose proof Hs as [Hc Hh]. split.
  - intros Hk. unfold Remove. rewrite (resolve_run _ _ _ _ _ Hs), Hk.
    reflexivity.
  - intros [v Hk].
    set (sd' := mkSessionData (Deadline sd) Modified (token sd)
                              (delete key (Values sd))).
    set (w' := set_heap (<[p := sd']> (w_heap w)) w).
    assert (Hs' : session_at s w' p sd').
    { split; [exact Hc|]. unfold w'. cbn. apply lookup_insert_eq. }
    exists w'. split; [|split; [|split; [|split]]].
    + unfold Remove. rewrite (resolve_run _ _ _ _ _ Hs), Hk. reflexivity.
    + unfold Exists. rewrite (resolve_run _ _ _ _ _ Hs'). unfold_M. cbn.
      rewrite lookup_delete_eq.
      rewrite bool_decide_eq_false_2 by (intros [? ?]; discriminate).
      reflexivity.
    + unfold Get. rewrite (resolve_run _ _ _ _ _ Hs'). unfold_M. cbn.
      rewrite lookup_delete_eq. reflexivity.
    + intros key' Hne. unfold Get. rewrite (resolve_run _ _ _ _ _ Hs').
      unfold_M. cbn. rewrite lookup_delete_ne by (intros ->; contradiction).
      reflexivity.
    + unfold current. destruct Hs' as [-> ->]. reflexivity.
Qed.

End ValuesFacts.

Lemma Put_then_Get_witness :
  ∃ w', Put exampleSession "user" (VString "alice") loadedWorld = (Ret tt, w') ∧
        Get exampleSession "user" w' = (Ret (VString "alice"), w').
Proof.
  destruct (Put_then_Get exampleSession "user" (VString "alice") loadedWorld 0 _
              loadedWorld_session) as (w' & HP & HG & _).
  exists w'. split; [exact HP|exact HG].
Defined.

Lemma Remove_present_or_absent_witness :
  Remove exampleSession "flash" loadedWorld = (Ret tt, loadedWorld).
Proof.
  apply (proj1 (Remove_present_or_absent exampleSession "flash" loadedWorld 0 _
                  loadedWorld_session)).
  reflexivity.
Defined.

(** ** Keys *)

Lemma string_compare_le_trans (s1 s2 s3 : string) :
  String.compare s1 s2 ≠ Gt → String.compare s2 s3 ≠ Gt →
  String.compare s1 s3 ≠ Gt.
Proof.
  revert s2 s3. induction s1 as [|a1 s1 IH]; intros [|a2 s2] [|a3 s3]; simpl;
    try congruence.
  unfold Ascii.compare.
  destruct (N.compare_spec (N_of_ascii a1) (N_of_ascii a2)) as [E12|L12|G12];
    destruct (N.compare_spec (N_of_ascii a2) (N_of_ascii a3)) as [E23|L23|G23];
    destruct (N.compare_spec (N_of_ascii a1) (N_of_ascii a3)) as [E13|L13|G13];
    try congruence; try lia.
  apply IH.
Qed.

#[global] Instance string_le_total : Total string_le.
Proof. intros a b. apply String.leb_total. Qed.

#[global] Instance string_le_trans : Transitive string_le.
Proof.
  intros a b c. unfold string_le, String.leb. intros Hab Hbc.
  pose proof (string_compare_le_trans a b c) as Ht.
  destruct (String.compare a b); try discriminate;
    destruct (String.compare b c); try discriminate;
    destruct (String.compare a c); try reflexivity;
    exfalso; apply Ht; congruence.
Qed.

Section KeysFacts.
Context {S : Type} `{!Store S} `{!Codec}.
Implicit Types (s : Session) (w : world S) (sd : sessionData) (p : nat).

(** X4. With a session in the request, Keys returns exactly the keys of
    the values map, each once, in ascending byte order (every key is
    below or equal to all keys after it), and leaves the world as it
    was. *)
Theorem Keys_sorted_without_duplicates s w p sd :
  session_at s w p sd →
  ∃ keys, Keys s w = (Ret keys, w) ∧
    StronglySorted string_le keys ∧
    NoDup keys ∧
    (∀ k, k ∈ keys ↔ is_Some (Values sd !! k)).
Proof.
  intros Hs. exists (sort_Strings (map_to_list (Values sd)).*1).
  split; [|split; [|split]].
  - unfold Keys. rewrite (resolve_run _ _ _ _ _ Hs). reflexivity.
  - apply StronglySorted_merge_sort; apply _.
  - unfold sort_Strings. rewrite merge_sort_Permutation.
    apply NoDup_fst_map_to_list.
  - intros k. unfold sort_Strings. rewrite merge_sort_Permutation.
    rewrite list_elem_of_fmap. split.
    + intros [[k' v] [-> Hin]]. exists v. apply elem_of_map_to_list. exact Hin.
    + intros [v Hv]. exists (k, v). split; [reflexivity|].
      apply elem_of_map_to_list. exact Hv.
Qed.

End KeysFacts.

Lemma Keys_sorted_without_duplicates_witness :
  let w := snd ((Put exampleSession "role" (VString "admin");;
                 Put exampleSession "age" (VInt 30)) loadedWorld) in
  ∃ keys, Keys exampleSession w = (Ret keys, w) ∧
          StronglySorted string_le keys ∧ NoDup keys.
Proof.
  intros w.
  destruct (Keys_sorted_without_duplicates exampleSession w 0
              (mkSessionData (Add (time_Unix 1000) (Lifetime exampleSession))
                 Modified "" {["role" := VString "admin"; "age" := VInt 30]}))
    as (keys & HK & Hsorted & Hnodup & _).
  - split; vm_compute; reflexivity.
  - exists keys. split; [exact HK|]. split; assumption.
Defined.

(** ** Load within a request and from the store *)

Section MoreLoadFacts.
Context {S : Type} `{!Store S} `{!Codec}.
Implicit Types (s : Session) (w : world S) (sd : sessionData) (p : nat).

Lemma Load_present s tok w p :
  w_scratch w !! contextKey s = Some (CSession p) →
  Load s tok w = (Ret (Ok p), w).
Proof. intros Hc. unfold Load, ctx_Get. unfold_M. rewrite Hc. reflexivity. Qed.

(** X5. Load is idempotent within a request: once a Load has returned a
    session, every further Load of the manager on that request, with any
    token, returns the same record and changes nothing; it does not ask
    the store again. *)
Theorem Load_idempotent s tok w p w' :
  Load s tok w = (Ret (Ok p), w') →
  w_scratch w' !! contextKey s = Some (CSession p) ∧
  ∀ tok', Load s tok' w' = (Ret (Ok p), w').
Proof.
  intros HL.
  assert (Hc : w_scratch w' !! contextKey s = Some (CSession p)).
  { revert HL. unfold_manager. cbn.
    repeat first [ progress cbn | rewrite lookup_insert_eq | break_match ];
      intros HL; try discriminate; injection HL as <- <-; cbn;
      first [ assumption | apply lookup_insert_eq ]. }
  split; [exact Hc|]. intros tok'. apply Load_present, Hc.
Qed.

(** A payload that is found and decodes. *)
Lemma Load_decoded s tok w b st d v :
  no_session s w → tok ≠ "" →
  Find tok (w_store w) = (Ok (Some b), st) → gob_decode b = Ok (d, v) →
  ∃ p w', Load s tok w = (Ret (Ok p), w') ∧
    w_heap w !! p = None ∧
    session_at s w' p
      (mkSessionData d (if (0 <? IdleTimeout s)%Z then Modified else Unmodified)
                     tok v) ∧
    w_store w' = st ∧ w_ticks w' = w_ticks w.
Proof.
  intros Hno Ht Hf Hd.
  exists (fresh (dom (w_heap w))), (snd (Load s tok w)).
  assert (Hrun : fst (Load s tok w) = Ret (Ok (fresh (dom (w_heap w)))) ∧
            session_at s (snd (Load s tok w)) (fresh (dom (w_heap w)))
              (mkSessionData d
                 (if (0 <? IdleTimeout s)%Z then Modified else Unmodified)
                 tok v) ∧
            w_store (snd (Load s tok w)) = st ∧
            w_ticks (snd (Load s tok w)) = w_ticks w).
  { unfold session_at. unfold_manager.
    destruct (w_scratch w !! contextKey s) as [[q|t]|] eqn:Ec;
      [exfalso; exact (Hno q Ec)| |];
      (destruct (decide (tok = "")); [contradiction|]);
      cbn; rewrite Hf; cbn; rewrite lookup_insert_eq; cbn; rewrite Hd; cbn;
      (destruct (0 <? IdleTimeout s)%Z; cbn; rewrite ?lookup_insert_eq; cbn;
       rewrite ?lookup_insert_eq; repeat split). }
  destruct Hrun as (Hfst & Hs & Hst & Htk).
  split; [|split; [apply fresh_not_allocated|
                   split; [exact Hs|split; [exact Hst|exact Htk]]]].
  rewrite <- Hfst. apply surjective_pairing.
Qed.

(** X6. On a request without a session and with a token that is not
    empty: an error of Store.Find is returned as it is, and no session is
    put in the request; a payload that is found and decodes gives a new
    record with the presented token and the deadline and values of the
    payload, whose status is Modified when IdleTimeout > 0 and Unmodified
    otherwise, and the clock is not read. *)
Theorem Load_from_store s tok w :
  no_session s w → tok ≠ "" →
  (∀ e st, Find tok (w_store w) = (Err e, st) →
     Load s tok w = (Ret (Err e), set_store st w)) ∧
  (∀ b st d v,
     Find tok (w_store w) = (Ok (Some b), st) → gob_decode b = Ok (d, v) →
     ∃ p w', Load s tok w = (Ret (Ok p), w') ∧
       w_heap w !! p = None ∧
       session_at s w' p
         (mkSessionData d (if (0 <? IdleTimeout s)%Z then Modified else Unmodified)
                        tok v) ∧
       w_store w' = st ∧ w_ticks w' = w_ticks w).
Proof.
  intros Hno Ht. split.
  - intros e st Hf. unfold_manager.
    destruct (w_scratch w !! contextKey s) as [[q|t]|] eqn:Ec;
      [exfalso; exact (Hno q Ec)| |];
      (destruct (decide (tok = "")); [contradiction|]);
      cbn; rewrite Hf; reflexivity.
  - intros b st d v. apply Load_decoded; assumption.
Qed.

End MoreLoadFacts.

Lemma Load_idempotent_witness :
  w_scratch loadedWorld !! contextKey exampleSession = Some (CSession 0) ∧
  ∀ tok', Load exampleSession tok' loadedWorld = (Ret (Ok 0), loadedWorld).
Proof.
  refine (Load_idempotent exampleSession "" exampleWorld 0 loadedWorld _).
  vm_compute; reflexivity.
Defined.

Lemma Load_from_store_witness :
  ∃ p w', Load exampleSession exampleToken storedWorld = (Ret (Ok p), w') ∧
    session_at exampleSession w' p
      (mkSessionData (time_Unix 86400) Unmodified exampleToken ∅).
Proof.
  assert (Hno : no_session exampleSession storedWorld)
    by (intros p; vm_compute; discriminate).
  destruct (proj2 (Load_from_store exampleSession exampleToken storedWorld Hno
                     ltac:(discriminate))
              [x01] (w_store storedWorld) (time_Unix 86400) ∅)
    as (p & w' & HL & _ & Hs & _).
  - vm_compute; reflexivity.
  - reflexivity.
  - exists p, w'. split; [exact HL|exact Hs].
Defined.

(** ** generateToken *)

Lemma EncodeToString_length_steps (b : list byte) (x y : byte) :
  String.length (EncodeToString b) = ((4 * length b + 2) / 3)%nat ∧
  String.length (EncodeToString (x :: b)) = ((4 * Datatypes.S (length b) + 2) / 3)%nat ∧
  String.length (EncodeToString (x :: y :: b))
    = ((4 * Datatypes.S (Datatypes.S (length b)) + 2) / 3)%nat.
Proof.
  revert x y. induction b as [|z b IH]; intros x y.
  - repeat split.
  - destruct (IH z x) as (H0 & H1 & H2).
    split; [exact (proj1 (proj2 (IH z z)))|].
    split; [exact (proj2 (proj2 (IH x z)))|].
    change (String.length (EncodeToString (x :: y :: z :: b)))
      with (4 + String.length (EncodeToString b))%nat.
    rewrite H0. cbn [length].
    replace (4 * Datatypes.S (Datatypes.S (Datatypes.S (length b))) + 2)%nat
      with ((4 * length b + 2) + 4 * 3)%nat by lia.
    rewrite Nat.div_add by discriminate. lia.
Qed.

Lemma EncodeToString_length (b : list byte) :
  String.length (EncodeToString b) = ((4 * length b + 2) / 3)%nat.
Proof. exact (proj1 (EncodeToString_length_steps b x00 x00)). Qed.

Lemma fill32_length (b : list byte) : length (fill32 b) = 32%nat.
Proof.
  unfold fill32. rewrite length_take, length_app, length_replicate. lia.
Qed.

Lemma b64char_url_safe (n : N) : url_safe (b64char n) = true.
Proof.
  unfold b64char.
  assert (Hlt : (N.to_nat (N.land n 63) < 64)%nat).
  { change 63%N with (N.ones 6). rewrite N.land_ones.
    pose proof (N.mod_upper_bound n (2 ^ 6)) as Hb.
    assert ((2 ^ 6)%N = 64%N) as He by reflexivity. rewrite He in *.
    specialize (Hb ltac:(discriminate)). lia. }
  revert Hlt. generalize (N.to_nat (N.land n 63)). intros k Hk.
  do 64 (destruct k as [|k]; [reflexivity|]). lia.
Qed.

Lemma EncodeToString_url_safe (b : list byte) (x y : byte) :
  all_chars url_safe (EncodeToString b) = true ∧
  all_chars url_safe (EncodeToString (x :: b)) = true ∧
  all_chars url_safe (EncodeToString (x :: y :: b)) = true.
Proof.
  revert x y. induction b as [|z b IH]; intros x y.
  - cbn [EncodeToString all_chars]. rewrite !b64char_url_safe. repeat split.
  - split; [exact (proj1 (proj2 (IH z z)))|].
    split; [exact (proj2 (proj2 (IH x z)))|].
    cbn [EncodeToString all_chars]. rewrite !b64char_url_safe.
    exact (proj1 (IH x y)).
Qed.

Section TokenFacts.
Context {S : Type}.
Implicit Types (w : world S).

(** X7. generateToken takes one draw from the random source. When the draw
    fails it returns that error; otherwise the token has 43 characters,
    all of them letters, digits, [-] or [_], whatever the bytes drawn: in
    particular a generated token is never empty. *)
Theorem generateToken_shape w :
  ∃ r, generateToken w = (Ret r, set_draws (Datatypes.S (w_draws w)) w) ∧
    match w_entropy w (w_draws w) with
    | Err e => r = Err e
    | Ok _ => ∃ tok, r = Ok tok ∧ String.length tok = 43%nat ∧
                     all_chars url_safe tok = true ∧ tok ≠ ""
    end.
Proof.
  unfold generateToken, rand_Read. unfold_M.
  destruct (w_entropy w (w_draws w)) as [b|e]; cbn.
  - eexists. split; [reflexivity|]. eexists. split; [reflexivity|].
    assert (Hlen : String.length (EncodeToString (fill32 b)) = 43%nat).
    { rewrite EncodeToString_length, fill32_length. reflexivity. }
    split; [exact Hlen|]. split.
    + exact (proj1 (EncodeToString_url_safe (fill32 b) x00 x00)).
    + intros Heq. rewrite Heq in Hlen. discriminate.
  - eexists. split; reflexivity.
Qed.

End TokenFacts.

(** ** Commit after Commit, and the status over a request *)

Section MoreCommitFacts.
Context {S : Type} `{!Store S} `{!Codec}.
Implicit Types (s : Session) (w : world S) (sd : sessionData) (p : nat).
#[local] Arguments fill32 : simpl never.

Lemma EncodeToString_fill32_nonempty (b : list byte) :
  EncodeToString (fill32 b) ≠ "".
Proof.
  intros Heq.
  pose proof (EncodeToString_length (fill32 b)) as Hlen.
  rewrite Heq, fill32_length in Hlen. discriminate.
Qed.

(** What a Commit that returns no error has done. *)
Lemma Commit_success_inv s w p sd tok expiry w' :
  session_at s w p sd →
  Commit s w = (Ret (tok, expiry, None), w') →
  tok ≠ "" ∧
  (token sd ≠ "" → tok = token sd ∧ w_draws w' = w_draws w) ∧
  session_at s w' p (set_token tok sd) ∧
  ∃ b, encode sd = Ok b ∧
       StoreCommit tok b expiry (w_store w) = (None, w_store w').
Proof.
  intros Hs. pose proof Hs as [Hc Hh].
  unfold Commit. rewrite (resolve_run _ _ _ _ _ Hs).
  unfold generateToken, rand_Read, assign, deref, Store_Commit, time_Now, encode.
  unfold_M. unfold session_at.
  destruct (decide (token sd = "")) as [Ht|Ht]; cbn.
  - destruct (w_entropy w (w_draws w)) as [b|e]; cbn; [|intros; discriminate].
    rewrite lookup_insert_eq. cbn.
    destruct (gob_encode (Deadline sd) (Values sd)) as [pl|e]; cbn;
      [|intros; discriminate].
    destruct (0 <? IdleTimeout s)%Z; cbn;
      (destruct (StoreCommit _ pl _ (w_store w)) as [[e|] st] eqn:Es; cbn;
       [intros; discriminate|]);
      intros Heq; injection Heq as <- <- <-; cbn;
      (split; [apply EncodeToString_fill32_nonempty|]);
      (split; [intros; contradiction|]);
      (split; [split; [exact Hc|apply lookup_insert_eq]|]);
      eexists; (split; [reflexivity|exact Es]).
  - rewrite Hh. cbn.
    destruct (gob_encode (Deadline sd) (Values sd)) as [pl|e]; cbn;
      [|intros; discriminate].
    destruct (0 <? IdleTimeout s)%Z; cbn;
      (destruct (StoreCommit _ pl _ (w_store w)) as [[e|] st] eqn:Es; cbn;
       [intros; discriminate|]);
      intros Heq; injection Heq as <- <- <-; cbn;
      (split; [exact Ht|]);
      (split; [intros _; split; reflexivity|]);
      (split; [split; [exact Hc|rewrite Hh; destruct sd; reflexivity]|]);
      eexists; (split; [reflexivity|exact Es]).
Qed.

(** X8. A token is minted once: after a Commit that succeeded, the token
    it returned is not empty, and every later Commit that succeeds on
    that request returns the same token, takes no draw from the random
    source and leaves the session as it was. *)
Theorem Commit_reuses_token s w p sd tok expiry w1 :
  session_at s w p sd →
  Commit s w = (Ret (tok, expiry, None), w1) →
  tok ≠ "" ∧
  ∀ tok2 expiry2 w2,
    Commit s w1 = (Ret (tok2, expiry2, None), w2) →
    tok2 = tok ∧ w_draws w2 = w_draws w1 ∧ current s w2 = current s w1.
Proof.
  intros Hs HC1.
  destruct (Commit_success_inv s w p sd tok expiry w1 Hs HC1)
    as (Hne & _ & Hs1 & _).
  split; [exact Hne|]. intros tok2 expiry2 w2 HC2.
  destruct (Commit_success_inv s w1 p _ tok2 expiry2 w2 Hs1 HC2)
    as (_ & Hkeep & Hs2 & _).
  destruct (Hkeep Hne) as [-> Hd]. split; [reflexivity|]. split; [exact Hd|].
  unfold current. destruct Hs1 as [-> ->]. destruct Hs2 as [-> ->].
  reflexivity.
Qed.

(** One operation keeps the session of the request in its place, and
    does not take its status back to Unmodified. *)
Lemma exec_keeps_status_changed s o w p sd :
  session_at s w p sd → status sd ≠ Unmodified →
  ∃ sd', session_at s (snd (exec s o w)) p sd' ∧ status sd' ≠ Unmodified.
Proof.
  intros [Hc Hh] Hst. unfold session_at.
  destruct o; unfold_manager; cbn; rewrite ?Hc; cbn; rewrite ?Hh; cbn;
    repeat first [ progress cbn | rewrite lookup_insert_eq | rewrite Hh
                 | break_match ];
    eexists; (split; [split; [exact Hc|reflexivity]|]);
    cbn; first [exact Hst|discriminate].
Qed.

(** X9. Within a request the status never returns to Unmodified: over
    any sequence of operations of the manager, a session that is Modified
    or Destroyed stays the session of the request and stays Modified or
    Destroyed. *)
Theorem status_never_returns_to_Unmodified s ops w p sd :
  session_at s w p sd → status sd ≠ Unmodified →
  ∃ sd', session_at s (run_ops s ops w) p sd' ∧ status sd' ≠ Unmodified.
Proof.
  revert w sd. induction ops as [|o rest IH]; intros w sd Hs Hst.
  - exists sd. split; assumption.
  - destruct (exec_keeps_status_changed s o w p sd Hs Hst) as (sd1 & Hs1 & Hst1).
    simpl. destruct (exec s o w) as [[[]|msg] w1]; cbn in Hs1.
    + exact (IH w1 sd1 Hs1 Hst1).
    + exists sd1. split; assumption.
Qed.

End MoreCommitFacts.

Lemma Commit_reuses_token_witness :
  exampleToken ≠ "" ∧
  ∀ tok2 expiry2 w2,
    Commit idleSession committedWorld = (Ret (tok2, expiry2, None), w2) →
    tok2 = exampleToken ∧ w_draws w2 = w_draws committedWorld ∧
    current idleSession w2 = current idleSession committedWorld.
Proof.
  refine (Commit_reuses_token idleSession modifiedWorld 0 _ exampleToken
            (Add (time_Unix 1000) (20 * 60 * Second)%Z) committedWorld
            modifiedWorld_session _).
  vm_compute; reflexivity.
Defined.

Lemma status_never_returns_to_Unmodified_witness :
  ∃ sd', session_at idleSession
           (run_ops idleSession [OpCommit; OpGet "user"; OpRemove "none"]
                    modifiedWorld) 0 sd' ∧
         status sd' ≠ Unmodified.
Proof.
  apply (status_never_returns_to_Unmodified idleSession _ modifiedWorld 0 _
           modifiedWorld_session).
  discriminate.
Defined.

(** ** Two managers on one request *)

Section IsolationFacts.
Context {S : Type} `{!Store S} `{!Codec}.
Implicit Types (s : Session) (w : world S) (sd : sessionData) (p : nat).
#[local] Arguments fill32 : simpl never.

Lemma exec_isolated s1 s2 o w p1 sd1 :
  contextKey s1 ≠ contextKey s2 →
  session_at s1 w p1 sd1 →
  w_scratch w !! contextKey s2 ≠ Some (CSession p1) →
  session_at s1 (snd (exec s2 o w)) p1 sd1 ∧
  w_scratch (snd (exec s2 o w)) !! contextKey s2 ≠ Some (CSession p1).
Proof.
  intros Hkeys [Hc Hh] Hapart. unfold session_at.
  assert (Hfresh : fresh (dom (w_heap w)) ≠ p1).
  { intros Heq. pose proof (fresh_not_allocated (w_heap w)) as Hf.
    rewrite Heq, Hh in Hf. discriminate. }
  assert (Hkeys' : contextKey s2 ≠ contextKey s1) by congruence.
  destruct o; unfold_manager; cbn;
    repeat first [ progress cbn | rewrite lookup_insert_eq | break_match ];
    subst;
    repeat match goal with
           | Hq : w_scratch w !! contextKey s2 = Some (CSession ?q) |- _ =>
               lazymatch goal with
               | _ : q ≠ p1 |- _ => fail
               | _ => assert (q ≠ p1) by congruence
               end
           end;
    (split; [split|]);
    rewrite ?lookup_insert_ne by assumption;
    rewrite ?lookup_insert_eq;
    first [ assumption | congruence ].
Qed.

(** X10. Two managers with different context keys do not disturb each
    other on a request: over any sequence of operations of the second
    manager, Load included, the session of the first manager stays the
    record it was, with its status, token, deadline and values, as long as
    the two were not made to share one record at the start. *)
Theorem managers_are_isolated s1 s2 ops w p1 sd1 :
  contextKey s1 ≠ contextKey s2 →
  session_at s1 w p1 sd1 →
  w_scratch w !! contextKey s2 ≠ Some (CSession p1) →
  session_at s1 (run_ops s2 ops w) p1 sd1.
Proof.
  intros Hkeys. revert w. induction ops as [|o rest IH]; intros w Hs Hapart;
    [exact Hs|].
  destruct (exec_isolated s1 s2 o w p1 sd1 Hkeys Hs Hapart) as [Hs1 Hapart1].
  simpl. destruct (exec s2 o w) as [[[]|msg] w1]; cbn in *.
  - apply IH; assumption.
  - exact Hs1.
Qed.

End IsolationFacts.

Lemma managers_are_isolated_witness :
  session_at exampleSession
    (run_ops secondSession [OpLoad ""; OpPut "user" (VString "bob"); OpDestroy]
             loadedWorld)
    0 (mkSessionData (Add (time_Unix 1000) (Lifetime exampleSession))
                     Unmodified "" ∅).
Proof.
  apply managers_are_isolated.
  - vm_compute. discriminate.
  - exact loadedWorld_session.
  - vm_compute. discriminate.
Defined.

(** ** The context keys of the managers *)

(** X11. Every manager made by NewSession gets its own context key: the
    keys made at two different values of the process counter differ, and
    NewSession advances the counter, so that two managers made one after
    the other never share a key. *)
Theorem NewSession_context_keys_differ (id1 id2 : nat) :
  (id1 ≠ id2 →
   contextKey (fst (NewSession id1)) ≠ contextKey (fst (NewSession id2))) ∧
  snd (NewSession id1) = Datatypes.S id1 ∧
  contextKey (fst (NewSession id1))
    ≠ contextKey (fst (NewSession (snd (NewSession id1)))).
Proof.
  assert (Hinj : ∀ a b, a ≠ b →
            contextKey (fst (NewSession a)) ≠ contextKey (fst (NewSession b))).
  { intros a b Hne Heq. apply Hne.
    unfold NewSession, generateContextKey in Heq. cbn in Heq.
    injection Heq as Heq. cbn in Heq. apply pretty_nat_inj in Heq. lia. }
  split; [apply Hinj|]. split.
  - unfold NewSession, generateContextKey. cbn. lia.
  - apply Hinj. unfold NewSession, generateContextKey. cbn. lia.
Qed.

Lemma NewSession_context_keys_differ_witness :
  snd (NewSession 0) = 1%nat ∧
  contextKey (fst (NewSession 0)) ≠ contextKey (fst (NewSession 1)).
Proof.
  split.
  - exact (proj1 (proj2 (NewSession_context_keys_differ 0 1))).
  - apply (proj1 (NewSession_context_keys_differ 0 1)). discriminate.
Defined.

(** ** From one request to the next *)

Section RoundTripFacts.
Context {S : Type} `{!Store S} `{!Codec}.
Implicit Types (s : Session) (w : world S) (sd : sessionData) (p : nat).

(** X12. What a request puts and commits, the next request gets: after
    Put and a Commit that succeeds, on a store that returns for the token
    the payload it was given and with a codec that decodes this payload to
    what was encoded, a request without a session that loads the returned
    token finds the value under the key, every other key as it was, and
    the same token and deadline. *)
Theorem Put_Commit_Load_Get s key val w p sd tok expiry w1 w2 :
  session_at s w p sd →
  (Put s key val;; Commit s) w = (Ret (tok, expiry, None), w1) →
  no_session s w2 → w_store w2 = w_store w1 →
  (∀ b st0, StoreCommit tok b expiry st0 = (None, w_store w1) →
            ∃ st, Find tok (w_store w1) = (Ok (Some b), st)) →
  (∀ b, gob_encode (Deadline sd) (<[key := val]> (Values sd)) = Ok b →
        gob_decode b = Ok (Deadline sd, <[key := val]> (Values sd))) →
  ∃ p' w3, Load s tok w2 = (Ret (Ok p'), w3) ∧
    Get s key w3 = (Ret val, w3) ∧
    (∀ k, k ≠ key → Get s k w3 = (Ret (default VNil (Values sd !! k)), w3)) ∧
    Token s w3 = (Ret tok, w3) ∧
    (Deadline <$> current s w3) = Some (Deadline sd).
Proof.
  intros Hs HPC Hno Hst Hstore Hcodec. pose proof Hs as [Hc Hh].
  set (sdp := mkSessionData (Deadline sd) Modified (token sd)
                            (<[key := val]> (Values sd))).
  set (wp := set_heap (<[p := sdp]> (w_heap w)) w).
  assert (HP : Put s key val w = (Ret tt, wp)).
  { unfold Put. rewrite (resolve_run _ _ _ _ _ Hs). reflexivity. }
  assert (Hsp : session_at s wp p sdp).
  { split; [exact Hc|]. unfold wp. cbn. apply lookup_insert_eq. }
  rewrite (bind_ret _ _ _ _ _ HP) in HPC.
  destruct (Commit_success_inv s wp p sdp tok expiry w1 Hsp HPC)
    as (Hne & _ & _ & b & Henc & Hsc).
  destruct (Hstore b _ Hsc) as [st Hf].
  specialize (Hcodec b Henc).
  rewrite <- Hst in Hf.
  destruct (Load_decoded s tok w2 b st _ _ Hno Hne Hf Hcodec)
    as (p' & w3 & HL & _ & Hs3 & _).
  exists p', w3. split; [exact HL|].
  pose proof Hs3 as [Hc3 Hh3].
  split; [|split; [|split]].
  - unfold Get. rewrite (resolve_run _ _ _ _ _ Hs3). unfold_M. cbn.
    rewrite lookup_insert_eq. reflexivity.
  - intros k Hk. unfold Get. rewrite (resolve_run _ _ _ _ _ Hs3). unfold_M. cbn.
    rewrite lookup_insert_ne by (intros ->; contradiction). reflexivity.
  - unfold Token. rewrite (resolve_run _ _ _ _ _ Hs3). reflexivity.
  - unfold current. rewrite Hc3, Hh3. reflexivity.
Qed.

End RoundTripFacts.

Section RoundTripWitness.
#[local] Existing Instance aliceCodec | 0.

Lemma Put_Commit_Load_Get_witness :
  let expiry := Add (time_Unix 1000) (Lifetime exampleSession) in
  let w1 := snd ((Put exampleSession "user" (VString "alice");;
                  Commit exampleSession) loadedWorld) in
  let w2 := mkWorld (w_store w1) ∅ ∅ {["session" := exampleToken]} ∅
                    (λ _, time_Unix 2000) 0 exampleEntropy 1 in
  ∃ p' w3, Load exampleSession exampleToken w2 = (Ret (Ok p'), w3) ∧
           Get exampleSession "user" w3 = (Ret (VString "alice"), w3).
Proof.
  intros expiry w1 w2.
  destruct (Put_Commit_Load_Get exampleSession "user" (VString "alice")
              loadedWorld 0 _ exampleToken expiry w1 w2 loadedWorld_session)
    as (p' & w3 & HL & HG & _).
  - vm_compute; reflexivity.
  - intros q. vm_compute. discriminate.
  - reflexivity.
  - intros b st0 Heq.
    assert (Hl : ms_items (snd (StoreCommit exampleToken b expiry st0))
                   !! exampleToken = Some (b, expiry))
      by (cbn; apply lookup_insert_eq).
    rewrite Heq in Hl.
    assert (Hl2 : ms_items (snd (@None error, w_store w1)) !! exampleToken
                  = Some ([x02], expiry))
      by (vm_compute; reflexivity).
    rewrite Hl2 in Hl. injection Hl as <-.
    eexists. vm_compute. reflexivity.
  - intros b _. reflexivity.
  - exists p', w3. split; [exact HL|exact HG].
Defined.

End RoundTripWitness.

(** ** Writing the cookie and saving from the middleware *)

Section SaveFacts.
Context {S : Type} `{!Store S} `{!Codec}.
Implicit Types (s : Session) (w : world S) (sd : sessionData) (p : nat).
#[local] Arguments CanonicalMIMEHeaderKey : simpl never.
#[local] Arguments fill32 : simpl never.

Lemma AddHeaderIfMissing_frame key x w :
  CanonicalMIMEHeaderKey key = key →
  ∃ w', AddHeaderIfMissing key x w = (Ret tt, w') ∧
    (∀ k, k ≠ key → w_headers w' !! k = w_headers w !! k) ∧
    w_store w' = w_store w ∧ w_heap w' = w_heap w ∧
    w_scratch w' = w_scratch w.
Proof.
  intros Hcan. rewrite AddHeaderIfMissing_run.
  destruct (occurrences key x w =? 0)%nat.
  - eexists. split; [reflexivity|]. unfold Header_Add, modify. cbn.
    rewrite Hcan. repeat split.
    intros k Hk. apply lookup_insert_ne. congruence.
  - exists w. repeat split.
Qed.

(** One call of WriteSessionCookie: the cookie it builds is appended to
    the Set-Cookie headers, and store, heap and scratch map stay. *)
Lemma WriteSessionCookie_appends s tok expiry w :
  ∃ c w1 w', sessionCookie s tok expiry w = (Ret c, w1) ∧
    WriteSessionCookie s tok expiry w = (Ret tt, w') ∧
    Set_Cookies w' = (Set_Cookies w ++ [cookie_String c])%list ∧
    w_store w' = w_store w ∧ w_heap w' = w_heap w ∧
    w_scratch w' = w_scratch w.
Proof.
  assert (Hc : ∃ c w1, sessionCookie s tok expiry w = (Ret c, w1) ∧
                 w_headers w1 = w_headers w ∧ w_store w1 = w_store w ∧
                 w_heap w1 = w_heap w ∧ w_scratch w1 = w_scratch w).
  { unfold sessionCookie, time_Now. unfold_M.
    destruct (IsZero expiry); [|destruct (Persist (Cookie s))];
      eexists _, _; repeat split. }
  destruct Hc as (c & w1 & Hc & Hh1 & Hst1 & Hhp1 & Hsc1).
  set (w2 := snd (Header_Add "Set-Cookie" (cookie_String c) w1)).
  destruct (AddHeaderIfMissing_frame "Cache-Control" no_cache_Set_Cookie w2 eq_refl)
    as (w3 & H3 & Hh3 & Hst3 & Hhp3 & Hsc3).
  destruct (AddHeaderIfMissing_frame "Vary" "Cookie" w3 eq_refl)
    as (w4 & H4 & Hh4 & Hst4 & Hhp4 & Hsc4).
  exists c, w1, w4. split; [exact Hc|]. split.
  - unfold WriteSessionCookie. rewrite (bind_ret _ _ _ _ _ Hc).
    rewrite bind_run. change (Header_Add "Set-Cookie" (cookie_String c) w1)
      with (Ret tt, w2). cbn beta iota.
    rewrite (bind_ret _ _ _ _ _ H3). exact H4.
  - split; [|rewrite Hst4, Hst3, Hhp4, Hhp3, Hsc4, Hsc3; unfold w2; cbn;
             rewrite Hst1, Hhp1, Hsc1; repeat split].
    unfold Set_Cookies. rewrite Hh4, Hh3 by discriminate.
    unfold w2, Header_Add, modify. cbn.
    change (CanonicalMIMEHeaderKey "Set-Cookie") with "Set-Cookie".
    rewrite lookup_insert_eq, Hh1. reflexivity.
Qed.

(** X13. Every call of WriteSessionCookie adds exactly one Set-Cookie
    header, after those already on the response: after a sequence of
    calls, by any managers, the response has as many more Set-Cookie
    headers as there were calls, and store, heap and scratch map are as
    they were. *)
Theorem one_Set_Cookie_per_write calls w :
  ∃ added w', write_all calls w = (Ret tt, w') ∧
    Set_Cookies w' = (Set_Cookies w ++ added)%list ∧
    length added = length calls ∧
    w_store w' = w_store w ∧ w_heap w' = w_heap w ∧
    w_scratch w' = w_scratch w.
Proof.
  revert w. induction calls as [|[[s tok] expiry] rest IH]; intros w.
  - exists [], w. rewrite app_nil_r. repeat split.
  - destruct (WriteSessionCookie_appends s tok expiry w)
      as (c & w1 & w2 & _ & HW & Hsc & Hst & Hhp & Hsr).
    destruct (IH w2) as (added & w' & Hrun & Hsc' & Hlen & Hst' & Hhp' & Hsr').
    exists (cookie_String c :: added), w'. split.
    + simpl. rewrite (bind_ret _ _ _ _ _ HW). exact Hrun.
    + rewrite Hsc', Hsc, Hst', Hst, Hhp', Hhp, Hsr', Hsr, <- app_assoc.
      cbn. rewrite Hlen. repeat split.
Qed.

Lemma Commit_keeps_headers s w :
  w_headers (snd (Commit s w)) = w_headers w.
Proof.
  unfold_manager. cbn.
  repeat first [ progress cbn | rewrite lookup_insert_eq | break_match ];
    reflexivity.
Qed.

(** X14. SaveFromMiddleware does nothing on an Unmodified session: no
    header, no call of the store. On a Destroyed session it appends one
    Set-Cookie header, the cookie with the empty value, Expires at Unix
    time 1 and MaxAge -1, and leaves the store and the session as they
    were. *)
Theorem SaveFromMiddleware_Unmodified_or_Destroyed s w p sd :
  session_at s w p sd →
  (status sd = Unmodified → SaveFromMiddleware s w = (Ret None, w)) ∧
  (status sd = Destroyed →
     ∃ w', SaveFromMiddleware s w = (Ret None, w') ∧
       Set_Cookies w' = (Set_Cookies w ++ [cookie_String (clearing_cookie s)])%list ∧
       w_store w' = w_store w ∧ session_at s w' p sd).
Proof.
  intros Hs.
  assert (HS : GetStatus s w = (Ret (status sd), w)).
  { unfold GetStatus. rewrite (resolve_run _ _ _ _ _ Hs). reflexivity. }
  unfold SaveFromMiddleware. rewrite (bind_ret _ _ _ _ _ HS).
  split; intros ->; [reflexivity|].
  destruct (WriteSessionCookie_appends s "" time_zero w)
    as (c & w1 & w' & Hc & HW & Hsc & Hst & Hhp & Hsr).
  exists w'. split; [rewrite (bind_ret _ _ _ _ _ HW); reflexivity|].
  assert (c = clearing_cookie s) as ->.
  { unfold sessionCookie in Hc. change (IsZero time_zero) with true in Hc.
    injection Hc as <- _. reflexivity. }
  split; [exact Hsc|]. split; [exact Hst|].
  destruct Hs as [Hk Hh]. split; [rewrite Hsr|rewrite Hhp]; assumption.
Qed.

(** A Modified session whose Commit succeeds: the cookie is written. *)
Lemma SaveFromMiddleware_commits s w p sd tok expiry w1 :
  session_at s w p sd → status sd = Modified →
  Commit s w = (Ret (tok, expiry, None), w1) →
  ∃ c w', SaveFromMiddleware s w = (Ret None, w') ∧
    Set_Cookies w' = (Set_Cookies w ++ [cookie_String c])%list ∧
    cValue c = tok ∧ cName c = Name (Cookie s) ∧
    w_store w' = w_store w1 ∧ w_heap w' = w_heap w1 ∧
    w_scratch w' = w_scratch w1.
Proof.
  intros Hs Hst HC.
  assert (HS : GetStatus s w = (Ret Modified, w)).
  { unfold GetStatus. rewrite (resolve_run _ _ _ _ _ Hs), Hst. reflexivity. }
  destruct (WriteSessionCookie_appends s tok expiry w1)
    as (c & w2 & w' & Hc & HW & Hsc & Hstore & Hheap & Hscr).
  exists c, w'. split.
  - unfold SaveFromMiddleware.
    rewrite (bind_ret _ _ _ _ _ HS), (bind_ret _ _ _ _ _ HC).
    rewrite (bind_ret _ _ _ _ _ HW). reflexivity.
  - split.
    + rewrite Hsc. unfold Set_Cookies.
      rewrite <- (Commit_keeps_headers s w), HC. reflexivity.
    + split; [|split; [|split; [exact Hstore|split; [exact Hheap|exact Hscr]]]];
        revert Hc; unfold sessionCookie, time_Now; unfold_M;
        (destruct (IsZero expiry); [|destruct (Persist (Cookie s))]);
        intros Hc; injection Hc as <- _; reflexivity.
Qed.

(** X15. On a Modified session SaveFromMiddleware commits first. When the
    Commit fails, its error is returned and no header is written; when it
    succeeds, one Set-Cookie header is appended whose cookie carries the
    token Commit returned, and the store is as Commit left it. *)
Theorem SaveFromMiddleware_Modified s w p sd :
  session_at s w p sd → status sd = Modified →
  (∀ tok expiry e w1,
     Commit s w = (Ret (tok, expiry, Some e), w1) →
     SaveFromMiddleware s w = (Ret (Some e), w1) ∧
     w_headers w1 = w_headers w) ∧
  (∀ tok expiry w1,
     Commit s w = (Ret (tok, expiry, None), w1) →
     ∃ c w', SaveFromMiddleware s w = (Ret None, w') ∧
       Set_Cookies w' = (Set_Cookies w ++ [cookie_String c])%list ∧
       cValue c = tok ∧ cName c = Name (Cookie s) ∧
       w_store w' = w_store w1).
Proof.
  intros Hs Hst.
  assert (HS : GetStatus s w = (Ret Modified, w)).
  { unfold GetStatus. rewrite (resolve_run _ _ _ _ _ Hs), Hst. reflexivity. }
  split.
  - intros tok expiry e w1 HC. split.
    + unfold SaveFromMiddleware.
      rewrite (bind_ret _ _ _ _ _ HS), (bind_ret _ _ _ _ _ HC). reflexivity.
    + rewrite <- (Commit_keeps_headers s w), HC. reflexivity.
  - intros tok expiry w1 HC.
    destruct (SaveFromMiddleware_commits s w p sd tok expiry w1 Hs Hst HC)
      as (c & w' & HSv & Hsc & Hv & Hn & Hstore & _).
    exists c, w'. repeat split; assumption.
Qed.

End SaveFacts.

Lemma destroyedWorld_session :
  session_at idleSession (snd (Destroy idleSession committedWorld)) 0
    (mkSessionData (Add (time_Unix 1000) (Lifetime idleSession)) Destroyed "" ∅).
Proof. split; vm_compute; reflexivity. Qed.

Lemma SaveFromMiddleware_Unmodified_or_Destroyed_witness :
  SaveFromMiddleware exampleSession loadedWorld = (Ret None, loadedWorld) ∧
  ∃ w', SaveFromMiddleware idleSession (snd (Destroy idleSession committedWorld))
          = (Ret None, w') ∧
        Set_Cookies w' = ["session="].
Proof.
  split.
  - apply (proj1 (SaveFromMiddleware_Unmodified_or_Destroyed exampleSession
                    loadedWorld 0 _ loadedWorld_session)).
    reflexivity.
  - destruct (proj2 (SaveFromMiddleware_Unmodified_or_Destroyed idleSession
                       _ 0 _ destroyedWorld_session) eq_refl)
      as (w' & HS & Hsc & _).
    exists w'. split; [exact HS|]. rewrite Hsc. vm_compute. reflexivity.
Defined.

Lemma SaveFromMiddleware_Modified_witness :
  SaveFromMiddleware exampleSession unencodableWorld
    = (Ret (Some "gob: type not registered for interface"),
       snd (Commit exampleSession unencodableWorld)) ∧
  w_headers (snd (Commit exampleSession unencodableWorld))
    = w_headers unencodableWorld.
Proof.
  apply (proj1 (SaveFromMiddleware_Modified exampleSession unencodableWorld 0 _
                  unencodableWorld_session eq_refl) "" time_zero).
  vm_compute; reflexivity.
Defined.

(** ** AddHeaderIfMissing and header names *)

Section MoreHeaderFacts.
Context {S : Type} `{!Store S} `{!Codec}.
Implicit Types (s : Session) (w : world S).
#[local] Arguments CanonicalMIMEHeaderKey : simpl never.

(** X16. AddHeaderIfMissing looks the value up under the key as it is
    given, and adds it under the canonical form of the key. With a key in
    canonical form a second call changes nothing. With a key that is not
    in canonical form, such as vary, the lookup finds nothing as long as
    the response holds no header under the key as given, so every call
    appends the value once more under the canonical key. *)
Theorem AddHeaderIfMissing_and_canonical_keys key value w :
  (CanonicalMIMEHeaderKey key = key →
     let w1 := snd (AddHeaderIfMissing key value w) in
     (1 ≤ occurrences key value w1)%nat ∧
     AddHeaderIfMissing key value w1 = (Ret tt, w1)) ∧
  (CanonicalMIMEHeaderKey key ≠ key → w_headers w !! key = None →
     let w1 := snd (AddHeaderIfMissing key value w) in
     occurrences (CanonicalMIMEHeaderKey key) value w1
       = Datatypes.S (occurrences (CanonicalMIMEHeaderKey key) value w) ∧
     w_headers w1 !! key = None).
Proof.
  split.
  - intros Hcan w1.
    assert (Hocc : (1 ≤ occurrences key value w1)%nat).
    { unfold w1.
      rewrite (AddHeaderIfMissing_occurrences key key value value w Hcan).
      rewrite decide_True by (split; reflexivity). lia. }
    split; [exact Hocc|]. rewrite AddHeaderIfMissing_run.
    destruct (Nat.eqb_spec (occurrences key value w1) 0); [lia|reflexivity].
  - intros Hcan Hnone w1. unfold w1. rewrite AddHeaderIfMissing_run.
    assert (Hz : occurrences key value w = 0%nat)
      by (unfold occurrences; rewrite Hnone; reflexivity).
    rewrite Hz. cbn. unfold occurrences. cbn.
    rewrite lookup_insert_eq, lookup_insert_ne by exact Hcan.
    split; [|exact Hnone]. cbn. rewrite count_occ_app. cbn.
    destruct (string_dec value value); [lia|contradiction].
Qed.

End MoreHeaderFacts.

Lemma AddHeaderIfMissing_and_canonical_keys_witness :
  let w1 := snd (AddHeaderIfMissing "vary" "Cookie" exampleWorld) in
  let w2 := snd (AddHeaderIfMissing "vary" "Cookie" w1) in
  occurrences "Vary" "Cookie" w1 = 1%nat ∧ occurrences "Vary" "Cookie" w2 = 2%nat.
Proof.
  intros w1 w2.
  destruct (proj2 (AddHeaderIfMissing_and_canonical_keys "vary" "Cookie"
                     exampleWorld) ltac:(discriminate) eq_refl) as [H1 Hn1].
  destruct (proj2 (AddHeaderIfMissing_and_canonical_keys "vary" "Cookie" w1)
              ltac:(discriminate) Hn1) as [H2 _].
  split; [exact H1|].
  exact (eq_trans H2 (f_equal Datatypes.S H1)).
Defined.

(** ** LoadFromMiddleware *)

Section LoadFromMiddlewareFacts.
Context {S : Type} `{!Store S} `{!Codec}.
Implicit Types (s : Session) (w : world S) (sd : sessionData) (p : nat).

(** X17. On a request without a session: when the request has no cookie
    under the name of the manager, LoadFromMiddleware returns no error,
    puts a new Unmodified session with the empty token and the deadline
    now + Lifetime in the request and leaves the store alone; when the
    cookie carries a token and Store.Find fails on it, the error comes
    back behind the text of LoadFromMiddleware and the request holds no
    session. *)
Theorem LoadFromMiddleware_cookie s w :
  no_session s w →
  (w_cookies w !! Name (Cookie s) = None →
     ∃ p w', LoadFromMiddleware s w = (Ret None, w') ∧
       session_at s w' p
         (mkSessionData (Add (w_clock w (w_ticks w)) (Lifetime s))
                        Unmodified "" ∅) ∧
       w_heap w !! p = None ∧ w_store w' = w_store w) ∧
  (∀ tok e st,
     w_cookies w !! Name (Cookie s) = Some tok → tok ≠ "" →
     Find tok (w_store w) = (Err e, st) →
     LoadFromMiddleware s w
       = (Ret (Some ("func s.Load failed in Session.LoadFromMiddleware; " ++ e)),
          set_store st w) ∧
     no_session s (set_store st w)).
Proof.
  intros Hno. split.
  - intros Hck. exists (fresh (dom (w_heap w))). eexists.
    unfold LoadFromMiddleware, ctx_Cookie, session_at. unfold_manager.
    rewrite Hck. cbn.
    destruct (w_scratch w !! contextKey s) as [[q|t]|] eqn:Ec;
      [exfalso; exact (Hno q Ec)| |]; cbn;
      (split; [reflexivity|]); cbn; rewrite !lookup_insert_eq;
      (split; [split; reflexivity|]);
      (split; [apply fresh_not_allocated|reflexivity]).
  - intros tok e st Hck Ht Hf. split; [|exact Hno].
    unfold LoadFromMiddleware, ctx_Cookie. unfold_manager.
    rewrite Hck. cbn.
    destruct (w_scratch w !! contextKey s) as [[q|t]|] eqn:Ec;
      [exfalso; exact (Hno q Ec)| |];
      (destruct (decide (tok = "")); [contradiction|]);
      cbn; rewrite Hf; reflexivity.
Qed.

End LoadFromMiddlewareFacts.

Lemma LoadFromMiddleware_cookie_witness :
  ∃ p w', LoadFromMiddleware exampleSession exampleWorld = (Ret None, w') ∧
    session_at exampleSession w' p
      (mkSessionData (Add (time_Unix 1000) (Lifetime exampleSession))
                     Unmodified "" ∅).
Proof.
  assert (Hno : no_session exampleSession exampleWorld)
    by (intros p; vm_compute; discriminate).
  destruct (proj1 (LoadFromMiddleware_cookie exampleSession exampleWorld Hno)
              eq_refl) as (p & w' & HL & Hs & _).
  exists p, w'. split; [exact HL|exact Hs].
Defined.

(** * Properties of the middleware package *)

(** ** The cache of named managers *)

Section SessionCacheFacts.
Context {C : Type}.
Implicit Types (sc : sessionCache C) (key : string) (i : C).

(** X18. Register stores the instance under the key, replacing what was
    there: Get then returns it, every other key is as before, and the
    Length grows by one exactly when the key is new. Register of a nil
    instance changes nothing. *)
Theorem Register_then_Get key i sc :
  CacheGet key (Register key (Some i) sc) = Some i ∧
  (∀ k, k ≠ key → CacheGet k (Register key (Some i) sc) = CacheGet k sc) ∧
  Length (Register key (Some i) sc)
    = (if CacheGet key sc is Some _ then Length sc else Datatypes.S (Length sc)) ∧
  Register key None sc = sc.
Proof.
  unfold CacheGet, Register, Length. cbn. split; [|split; [|split]].
  - rewrite lookup_insert_eq. reflexivity.
  - intros k Hk. rewrite lookup_insert_ne by congruence. reflexivity.
  - rewrite map_size_insert. destruct (instances sc !! key); reflexivity.
  - reflexivity.
Qed.

(** X19. RegisterWithErrorChecks fails exactly when the instance is nil or
    the key is already in the cache, and then leaves the cache as it was;
    otherwise it returns no error, Get returns the instance for the key,
    the other keys stay and the Length grows by one. *)
Theorem RegisterWithErrorChecks_strict key (instance : option C) sc :
  let r := RegisterWithErrorChecks key instance sc in
  (is_Some (fst r) ↔ instance = None ∨ is_Some (CacheGet key sc)) ∧
  (is_Some (fst r) → snd r = sc) ∧
  (fst r = None →
     CacheGet key (snd r) = instance ∧
     (∀ k, k ≠ key → CacheGet k (snd r) = CacheGet k sc) ∧
     Length (snd r) = Datatypes.S (Length sc)).
Proof.
  unfold RegisterWithErrorChecks, CacheGet, Length.
  destruct instance as [i|]; [destruct (instances sc !! key) as [j|] eqn:Hk|];
    cbn; (split; [|split]).
  - split; [intros _; right; eauto|intros _; eauto].
  - reflexivity.
  - discriminate.
  - split; [intros [? ?]; discriminate|].
    intros [?|[? ?]]; discriminate.
  - intros [? ?]; discriminate.
  - intros _. rewrite lookup_insert_eq. split; [reflexivity|]. split.
    + intros k Hne. rewrite lookup_insert_ne by congruence. reflexivity.
    + apply map_size_insert_None. exact Hk.
  - split; [intros _; left; reflexivity|intros _; eauto].
  - reflexivity.
  - discriminate.
Qed.

(** X20. Remove never returns an error. Afterwards Get finds nothing
    under the key and every other key is as before; the Length drops by
    one exactly when the key was there; a second Remove changes nothing;
    and the key can be registered again with RegisterWithErrorChecks. *)
Theorem CacheRemove_then_Get key sc :
  let sc' := snd (CacheRemove key sc) in
  fst (CacheRemove key sc) = None ∧
  CacheGet key sc' = None ∧
  (∀ k, k ≠ key → CacheGet k sc' = CacheGet k sc) ∧
  Length sc' = (if CacheGet key sc is Some _ then pred (Length sc) else Length sc) ∧
  CacheRemove key sc' = (None, sc') ∧
  (∀ i, fst (RegisterWithErrorChecks key (Some i) sc') = None).
Proof.
  unfold CacheRemove, CacheGet, Length, RegisterWithErrorChecks.
  destruct (instances sc !! key) as [j|] eqn:Hk; cbn.
  - rewrite lookup_delete_eq. repeat split.
    + intros k Hne. rewrite lookup_delete_ne by congruence. reflexivity.
    + apply map_size_delete_Some. eauto.
  - rewrite Hk. repeat split.
Qed.

End SessionCacheFacts.

(** ** Minutes, durations and Initialize *)

Lemma wrap64_in_range (z : Z) :
  (- 2 ^ 63 ≤ z < 2 ^ 63)%Z → wrap64 z = z.
Proof.
  intros Hr. unfold wrap64.
  rewrite Z.mod_small by lia. lia.
Qed.

Lemma minutes_in_range (m : Z) :
  (0 < m ≤ max_minutes)%Z →
  wrap64 (wrap64 m * Minute) = (m * Minute)%Z ∧ (0 < m * Minute)%Z.
Proof.
  unfold max_minutes, Minute, Second. intros Hm.
  rewrite (wrap64_in_range m) by lia.
  rewrite wrap64_in_range by lia. lia.
Qed.

(** X21. GetLifetime gives 24 hours, the lifetime NewSession starts with,
    when LifetimeMinutes is zero or negative, and GetIdleTimeout gives 0
    when IdleTimeoutMinutes is zero or negative. From 1 up to 153722867
    minutes both give that many minutes, a positive duration. Above, up
    to 307445734 minutes, the multiplication overflows the int64 and the
    duration is negative. *)
Theorem minutes_to_durations (e : EchoSessionSCS) :
  ((LifetimeMinutes e ≤ 0)%Z →
     GetLifetime e = (24 * 3600 * Second)%Z ∧
     GetLifetime e = Lifetime (fst (NewSession 0))) ∧
  ((IdleTimeoutMinutes e ≤ 0)%Z → GetIdleTimeout e = 0%Z) ∧
  ((0 < LifetimeMinutes e ≤ max_minutes)%Z →
     GetLifetime e = (LifetimeMinutes e * Minute)%Z ∧ (0 < GetLifetime e)%Z) ∧
  ((0 < IdleTimeoutMinutes e ≤ max_minutes)%Z →
     GetIdleTimeout e = (IdleTimeoutMinutes e * Minute)%Z ∧
     (0 < GetIdleTimeout e)%Z) ∧
  ((max_minutes < LifetimeMinutes e ≤ 2 * max_minutes)%Z →
     GetLifetime e = (LifetimeMinutes e * Minute - 2 ^ 64)%Z ∧
     (GetLifetime e < 0)%Z).
Proof.
  unfold GetLifetime, GetIdleTimeout. repeat split.
  - destruct (Z.leb_spec (LifetimeMinutes e) 0); [reflexivity|lia].
  - destruct (Z.leb_spec (LifetimeMinutes e) 0); [reflexivity|lia].
  - destruct (Z.leb_spec (IdleTimeoutMinutes e) 0); [reflexivity|lia].
  - destruct (Z.leb_spec (LifetimeMinutes e) 0); [lia|].
    apply minutes_in_range. assumption.
  - destruct (Z.leb_spec (LifetimeMinutes e) 0); [lia|].
    rewrite (proj1 (minutes_in_range _ H)). apply minutes_in_range, H.
  - destruct (Z.leb_spec (IdleTimeoutMinutes e) 0); [lia|].
    apply minutes_in_range. assumption.
  - destruct (Z.leb_spec (IdleTimeoutMinutes e) 0); [lia|].
    rewrite (proj1 (minutes_in_range _ H)). apply minutes_in_range, H.
  - destruct (Z.leb_spec (LifetimeMinutes e) 0);
      [unfold max_minutes in *; lia|].
    unfold max_minutes, Minute, Second in *.
    rewrite (wrap64_in_range (LifetimeMinutes e)) by lia.
    unfold wrap64.
    replace ((LifetimeMinutes e * (60 * 1000000000) + 2 ^ 63) mod 2 ^ 64)%Z
      with (LifetimeMinutes e * (60 * 1000000000) + 2 ^ 63 - 1 * 2 ^ 64)%Z; [lia|].
    apply Z.mod_unique with (q := 1%Z); lia.
  - destruct (Z.leb_spec (LifetimeMinutes e) 0);
      [unfold max_minutes in *; lia|].
    unfold max_minutes, Minute, Second in *.
    rewrite (wrap64_in_range (LifetimeMinutes e)) by lia.
    unfold wrap64.
    replace ((LifetimeMinutes e * (60 * 1000000000) + 2 ^ 63) mod 2 ^ 64)%Z
      with (LifetimeMinutes e * (60 * 1000000000) + 2 ^ 63 - 1 * 2 ^ 64)%Z; [lia|].
    apply Z.mod_unique with (q := 1%Z); lia.
Qed.

Lemma minutes_to_durations_witness :
  GetLifetime (mkEchoSessionSCS exampleSession 0 30 []) = (30 * Minute)%Z ∧
  (0 < GetLifetime (mkEchoSessionSCS exampleSession 0 30 []))%Z.
Proof.
  apply (proj1 (proj2 (proj2 (minutes_to_durations
           (mkEchoSessionSCS exampleSession 0 30 []))))).
  vm_compute. split; [reflexivity|discriminate].
Defined.

Lemma register_all (l : list (option nat)) (reg : list nat) :
  fold_left (λ reg i, match i with
                      | Some t => (reg ++ [t])%list
                      | None => reg
                      end) l reg
  = (reg ++ omap id l)%list.
Proof.
  revert reg. induction l as [|[t|] l IH]; intros reg; cbn.
  - rewrite app_nil_r. reflexivity.
  - rewrite IH, <- app_assoc. reflexivity.
  - apply IH.
Qed.

(** X22. Initialize never fails. It replaces the Lifetime and the
    IdleTimeout of the manager by the durations of the two minute fields,
    whatever they were before, and keeps the cookie settings and the
    context key; so with minute fields of at most 153722867 the manager
    has a positive Lifetime and an IdleTimeout that is not negative. It
    registers with gob the entries of GOBInterfaces that are not nil, in
    their order, and a second Initialize leaves the manager as the first
    did. *)
Theorem Initialize_sets_durations (e : EchoSessionSCS) (registered : list nat) :
  let e' := snd (fst (Initialize e registered)) in
  fst (fst (Initialize e registered)) = None ∧
  Lifetime (eSession e') = GetLifetime e ∧
  IdleTimeout (eSession e') = GetIdleTimeout e ∧
  Cookie (eSession e') = Cookie (eSession e) ∧
  contextKey (eSession e') = contextKey (eSession e) ∧
  ((LifetimeMinutes e ≤ max_minutes)%Z → (0 < Lifetime (eSession e'))%Z) ∧
  ((IdleTimeoutMinutes e ≤ max_minutes)%Z → (0 ≤ IdleTimeout (eSession e'))%Z) ∧
  snd (Initialize e registered) = (registered ++ omap id (GOBInterfaces e))%list ∧
  (∀ registered', snd (fst (Initialize e' registered')) = e').
Proof.
  unfold Initialize. cbn. rewrite register_all.
  repeat split.
  - intros Hm. unfold GetLifetime.
    destruct (Z.leb_spec (LifetimeMinutes e) 0); [reflexivity|].
    rewrite (proj1 (minutes_in_range (LifetimeMinutes e) ltac:(lia))).
    apply minutes_in_range. lia.
  - intros Hm. unfold GetIdleTimeout.
    destruct (Z.leb_spec (IdleTimeoutMinutes e) 0); [lia|].
    rewrite (proj1 (minutes_in_range (IdleTimeoutMinutes e) ltac:(lia))).
    pose proof (proj2 (minutes_in_range (IdleTimeoutMinutes e) ltac:(lia))). lia.
Qed.

Lemma Initialize_sets_durations_witness :
  (0 < Lifetime (eSession (snd (fst (Initialize
          (mkEchoSessionSCS idleSession 0 (-5) [Some 3%nat; None; Some 4%nat]) [])))))%Z.
Proof.
  apply (Initialize_sets_durations
           (mkEchoSessionSCS idleSession 0 (-5) [Some 3%nat; None; Some 4%nat]) []).
  vm_compute. discriminate.
Defined.

(** ** The middleware: skipped requests and failing checks *)

(** X23. When the Skipper skips a request the middleware runs the handler
    and nothing else: neither LoadCheck nor SaveCheck is called. When
    LoadCheck fails the middleware returns its error behind the text
    "could not load the session in SessionsWithConfig; " and calls neither
    SaveCheck nor the handler; when SaveCheck fails it returns that error
    behind "could not save the session in SessionsWithConfig; " and does
    not call the handler. *)
Theorem middleware_skips_and_surfaces_errors {W} (config : SessionsConfig W)
  (next : M W (option error)) (w w0 : W) :
  (Skipper config w = (Ret true, w0) →
     SessionsWithConfig config next w = next w0 ∧
     steps_taken config next w = [SkipperStep; HandlerStep]) ∧
  (Skipper config w = (Ret false, w0) →
     (∀ e w1, LoadCheck config w0 = (Ret (Some e), w1) →
        SessionsWithConfig config next w
          = (Ret (Some ("could not load the session in SessionsWithConfig; " ++ e)),
             w1) ∧
        steps_taken config next w = [SkipperStep; LoadCheckStep]) ∧
     (∀ e w1 w2, LoadCheck config w0 = (Ret None, w1) →
        SaveCheck config w1 = (Ret (Some e), w2) →
        SessionsWithConfig config next w
          = (Ret (Some ("could not save the session in SessionsWithConfig; " ++ e)),
             w2) ∧
        steps_taken config next w
          = [SkipperStep; LoadCheckStep; SaveCheckStep])).
Proof.
  unfold steps_taken, SessionsWithConfig, logged_config, logged. unfold_M. cbn.
  split; [|intros Hskip; split].
  - intros ->. cbn. destruct (next w0) as [r w1]. split; reflexivity.
  - intros e w1 HL. rewrite Hskip. cbn. rewrite HL. cbn. split; reflexivity.
  - intros e w1 w2 HL HS. rewrite Hskip. cbn. rewrite HL. cbn. rewrite HS. cbn.
    split; reflexivity.
Qed.

Lemma middleware_skips_and_surfaces_errors_witness :
  SessionsWithConfig skippingConfig exampleHandler exampleWorld
    = exampleHandler exampleWorld ∧
  steps_taken skippingConfig exampleHandler exampleWorld
    = [SkipperStep; HandlerStep].
Proof.
  exact (proj1 (middleware_skips_and_surfaces_errors skippingConfig
                  exampleHandler exampleWorld exampleWorld) eq_refl).
Defined.

(** ** Setting up the middleware *)

Ltac unfold_setup :=
  unfold SessionsWithConfig_setup, read_config, write_config, call_Initialize,
    cookie_name_of, cache_RegisterWithErrorChecks, SessionCache,
    RegisterWithErrorChecks;
  unfold_M.

Lemma with_defaults_idem dflt cfg :
  with_defaults dflt (with_defaults dflt cfg) = with_defaults dflt cfg.
Proof. destruct cfg as [[k|] [q|] dc], dflt as [[dk|] [dq|] ddc]; reflexivity. Qed.

Lemma with_defaults_self dflt : with_defaults dflt dflt = dflt.
Proof. destruct dflt as [[dk|] [dq|] ddc]; reflexivity. Qed.

(** What SessionsWithConfig does before it returns the middleware, on a
    config whose session is at hand: the config is completed from the
    default config, the session is initialized, and the config is
    registered when it asks for the cache. *)
Lemma setup_outcome ps c dflt cfg q obj err e' registered' :
  configured ps c dflt cfg q obj →
  iInitialize obj (iEcho obj) (p_gob ps) = (err, e', registered') →
  let name := Name (Cookie (eSession e')) in
  let cache := fst (SessionCache (p_scache ps)) in
  let after scache :=
    mkProcess (<[c := with_defaults dflt cfg]> (p_configs ps))
              (<[q := mkISession e' (iInitialize obj)]> (p_sessions ps))
              scache registered' in
  SessionsWithConfig_setup (Some c) ps =
  match err with
  | Some e => (Panic (cannot_initialize e), after (p_scache ps))
  | None =>
      if DoCache cfg then
        match instances cache !! name with
        | Some _ =>
            (Panic (cannot_initialize
               ("cannot register cache because SessionsConfig instance already found in cache where session key is "
                ++ name)),
             after (Some cache))
        | None =>
            (Ret c, after (Some (mkSessionCache (<[name := c]> (instances cache)))))
        end
      else (Ret c, after (p_scache ps))
  end.
Proof.
  intros (Hd & Hc & Hq & Hobj) Hinit name cache after.
  destruct cfg as [sk qq dc], dflt as [dsk dq ddc]. cbn in Hq.
  assert (Hne : sk = None → qq = None → c ≠ DefaultSessionsConfig).
  { intros -> -> ->. cbn in Hq. rewrite Hd in Hc. injection Hc as _ Hdq _.
    rewrite Hdq in Hq. discriminate Hq. }
  unfold after, with_defaults. cbn [cSkipper cSession DoCache].
  unfold_setup. cbn.
  destruct sk as [k|], qq as [q0|]; cbn in Hq |- *;
    try (injection Hq as ->); try subst dq;
    try specialize (Hne eq_refl eq_refl);
    repeat (first [ rewrite Hc | rewrite Hd | rewrite lookup_insert_eq
                  | rewrite lookup_insert_ne by exact Hne
                  | rewrite insert_insert_eq ]; cbn);
    rewrite ?Hobj, ?Hinit; cbn;
    rewrite ?(insert_id _ _ _ Hc);
    (destruct err as [e|]; [reflexivity|]);
    (destruct dc; [|reflexivity]); cbn; rewrite lookup_insert_eq; cbn;
    unfold cache, name, SessionCache, GetSession;
    (destruct (p_scache ps) as [sc|]; cbn;
     [destruct (instances sc !! _); reflexivity|]);
    rewrite lookup_empty; reflexivity.
Qed.

(** Initialize of EchoSessionSCS returns no error and keeps the cookie. *)
Lemma Initialize_keeps_cookie (e : EchoSessionSCS) (registered : list nat) :
  ∃ e' registered', Initialize e registered = (None, e', registered') ∧
                    Cookie (eSession e') = Cookie (eSession e).
Proof. eexists _, _. split; reflexivity. Qed.

(** X24. When the Initialize of the session of a config, its own or the
    one it takes from the default config, returns an error,
    SessionsWithConfig panics with that error behind the text "cannot
    initialize session in SessionsWithConfig; " and the cache of named
    configs has not changed. The configs are as they were but for the
    config itself, whose nil Skipper and nil Session have been filled in
    from the default config before the panic; a config that names both is
    unchanged. *)
Theorem setup_panics_when_Initialize_fails ps c dflt cfg q obj e e' registered' :
  configured ps c dflt cfg q obj →
  iInitialize obj (iEcho obj) (p_gob ps) = (Some e, e', registered') →
  let r := SessionsWithConfig_setup (Some c) ps in
  fst r = Panic (cannot_initialize e) ∧
  p_scache (snd r) = p_scache ps ∧
  p_configs (snd r) = <[c := with_defaults dflt cfg]> (p_configs ps) ∧
  (is_Some (cSkipper cfg) → is_Some (cSession cfg) →
   p_configs (snd r) = p_configs ps).
Proof.
  intros Hcf Hinit r. unfold r.
  rewrite (setup_outcome _ _ _ _ _ _ _ _ _ Hcf Hinit). cbn.
  split; [reflexivity|]. split; [reflexivity|]. split; [reflexivity|].
  intros [k Hk] [q0 Hq0]. destruct Hcf as (_ & Hc & _).
  destruct cfg as [sk qq dc]. cbn in Hk, Hq0. subst sk qq.
  apply insert_id. exact Hc.
Qed.

(** X25. When Initialize succeeds, for a config that names its skipper
    and its session or takes either from the default config: with DoCache
    unset the cache is left alone; with DoCache set the config is
    registered in the cache under the cookie name of its session, once: if
    the name is free the config is returned and Get finds it under the
    name, and if the name is taken SessionsWithConfig panics and the cache
    keeps what it had. *)
Theorem setup_registers_config_once ps c dflt cfg q obj e' registered' :
  configured ps c dflt cfg q obj →
  iInitialize obj (iEcho obj) (p_gob ps) = (None, e', registered') →
  let name := Name (Cookie (eSession e')) in
  let cache := fst (SessionCache (p_scache ps)) in
  let r := SessionsWithConfig_setup (Some c) ps in
  (DoCache cfg = false → fst r = Ret c ∧ p_scache (snd r) = p_scache ps) ∧
  (DoCache cfg = true → CacheGet name cache = None →
     fst r = Ret c ∧
     ∃ cache', p_scache (snd r) = Some cache' ∧
       CacheGet name cache' = Some c ∧
       Length cache' = Datatypes.S (Length cache) ∧
       (∀ k, k ≠ name → CacheGet k cache' = CacheGet k cache)) ∧
  (DoCache cfg = true → is_Some (CacheGet name cache) →
     fst r = Panic (cannot_initialize
       ("cannot register cache because SessionsConfig instance already found in cache where session key is "
        ++ name)) ∧
     p_scache (snd r) = p_scache ps).
Proof.
  intros Hcf Hinit name cache r. unfold r.
  rewrite (setup_outcome _ _ _ _ _ _ _ _ _ Hcf Hinit). fold name cache.
  unfold CacheGet, Length. split; [|split].
  - intros ->. split; reflexivity.
  - intros -> Hfree.
    destruct (instances cache !! name) eqn:Hn; [discriminate|].
    split; [reflexivity|]. eexists. split; [reflexivity|]. cbn.
    rewrite lookup_insert_eq. split; [reflexivity|]. split.
    + apply map_size_insert_None. exact Hn.
    + intros k Hk. rewrite lookup_insert_ne by congruence. reflexivity.
  - intros -> Htaken.
    destruct (instances cache !! name) eqn:Hn;
      [|destruct Htaken; discriminate].
    split; [reflexivity|]. cbn. unfold cache in *.
    destruct (p_scache ps) as [sc|]; [reflexivity|].
    cbn in Hn. rewrite lookup_empty in Hn. discriminate.
Qed.

(** X26. A config with DoCache set can be set up once, whether it names
    its skipper and its session or takes them from the default config:
    after a first SessionsWithConfig on it has returned, a second one on
    the same config panics, because its cookie name is already in the
    cache. This holds for a session whose Initialize is that of
    EchoSessionSCS, and so for Sessions(), which always uses the default
    config. *)
Theorem setup_twice_panics ps c dflt cfg q e ps1 :
  configured ps c dflt cfg q (mkISession e Initialize) →
  DoCache cfg = true →
  SessionsWithConfig_setup (Some c) ps = (Ret c, ps1) →
  let taken :=
    Panic (cannot_initialize
      ("cannot register cache because SessionsConfig instance already found in cache where session key is "
       ++ Name (Cookie (eSession e)))) in
  fst (SessionsWithConfig_setup (Some c) ps1) = taken ∧
  (c = DefaultSessionsConfig → fst (Sessions_setup ps1) = taken).
Proof.
  intros Hcf Hdc Hfirst taken.
  assert (Hsecond : fst (SessionsWithConfig_setup (Some c) ps1) = taken);
    [|split; [exact Hsecond|intros ->; exact Hsecond]].
  destruct (Initialize_keeps_cookie e (p_gob ps)) as (e1 & reg1 & Hinit & Hck).
  rewrite (setup_outcome _ _ _ _ _ _ _ _ _ Hcf Hinit) in Hfirst.
  rewrite Hdc in Hfirst. cbn [iInitialize] in Hfirst.
  destruct (instances (fst (SessionCache (p_scache ps)))
              !! Name (Cookie (eSession e1))) eqn:Hn; [discriminate|].
  injection Hfirst as <-.
  destruct (Initialize_keeps_cookie e1 reg1) as (e2 & reg2 & Hinit2 & Hck2).
  destruct Hcf as (Hd & Hc & Hq & Hobj).
  erewrite (setup_outcome _ c dflt (with_defaults dflt cfg) q
              (mkISession e1 Initialize));
    [| |cbn [iInitialize iEcho p_gob]; exact Hinit2].
  - cbn [DoCache with_defaults]. rewrite Hdc. cbn.
    rewrite Hck2, lookup_insert_eq. unfold taken. cbn. rewrite Hck.
    reflexivity.
  - split; [|split; [|split]]; cbn [p_configs p_sessions].
    + destruct (decide (c = DefaultSessionsConfig)) as [->|Hne].
      * rewrite Hd in Hc. injection Hc as <-.
        rewrite with_defaults_self, lookup_insert_eq. reflexivity.
      * rewrite lookup_insert_ne by exact Hne. exact Hd.
    + apply lookup_insert_eq.
    + rewrite with_defaults_idem. exact Hq.
    + apply lookup_insert_eq.
Qed.

(** X27. A config that names no skipper and no session gets both from the
    default config before anything else happens: when SessionsWithConfig
    returns, the config holds the skipper of the default config and points
    to the very session object of the default config. A nil config stands
    for the default config itself. *)
Theorem setup_fills_defaults ps c dc dflt :
  c ≠ DefaultSessionsConfig →
  p_configs ps !! c = Some (mkSessionsConfigObj None None dc) →
  p_configs ps !! DefaultSessionsConfig = Some dflt →
  let r := SessionsWithConfig_setup (Some c) ps in
  (fst r = Ret c →
     p_configs (snd r) !! c
       = Some (mkSessionsConfigObj (cSkipper dflt) (cSession dflt) dc) ∧
     p_configs (snd r) !! DefaultSessionsConfig = Some dflt) ∧
  SessionsWithConfig_setup None ps
    = SessionsWithConfig_setup (Some DefaultSessionsConfig) ps.
Proof.
  intros Hne Hc Hd r. split; [|reflexivity].
  unfold r. unfold_setup. cbn. rewrite Hc. cbn. rewrite Hd. cbn.
  rewrite lookup_insert_eq. cbn.
  rewrite lookup_insert_ne by exact Hne. rewrite Hd. cbn.
  rewrite lookup_insert_eq. cbn.
  repeat first [ progress cbn | rewrite lookup_insert_eq | break_match ];
    intros Hret; try discriminate;
    rewrite ?insert_insert_eq, ?lookup_insert_eq;
    rewrite ?lookup_insert_ne by exact Hne;
    (split; [reflexivity|exact Hd]).
Qed.

Lemma failingProcess_configured :
  configured failingProcess 1
    (mkSessionsConfigObj (Some 0%nat) (Some 0%nat) true)
    (mkSessionsConfigObj None (Some 1%nat) false) 1 failingISession.
Proof.
  split; [vm_compute; reflexivity|]. split; [vm_compute; reflexivity|].
  split; [reflexivity|]. unfold failingProcess. cbn [p_sessions].
  apply lookup_insert_eq.
Qed.

(** The config of TestMiddlewarePanic: the panic, the cache untouched, and
    the skipper the config has taken from the default config. *)
Lemma setup_panics_when_Initialize_fails_witness :
  fst (SessionsWithConfig_setup (Some 1%nat) failingProcess)
    = Panic (cannot_initialize "testing panic") ∧
  p_scache (snd (SessionsWithConfig_setup (Some 1%nat) failingProcess))
    = p_scache failingProcess ∧
  p_configs (snd (SessionsWithConfig_setup (Some 1%nat) failingProcess)) !! 1%nat
    = Some (mkSessionsConfigObj (Some 0%nat) (Some 1%nat) false).
Proof.
  assert (Hinit : iInitialize failingISession (iEcho failingISession)
                    (p_gob failingProcess)
                  = (Some "testing panic", iEcho failingISession, []))
    by reflexivity.
  destruct (setup_panics_when_Initialize_fails failingProcess 1 _ _ 1 _ _ _ _
              failingProcess_configured Hinit) as (Hp & Hc & Hcfg & _).
  split; [exact Hp|]. split; [exact Hc|].
  rewrite Hcfg. apply lookup_insert_eq.
Defined.

Lemma defaultProcess_configured :
  configured defaultProcess DefaultSessionsConfig
    (mkSessionsConfigObj (Some 0%nat) (Some 0%nat) true)
    (mkSessionsConfigObj (Some 0%nat) (Some 0%nat) true) 0
    (mkISession (mkEchoSessionSCS exampleSession 0 0 []) Initialize).
Proof.
  split; [vm_compute; reflexivity|]. split; [vm_compute; reflexivity|].
  split; [reflexivity|]. unfold defaultProcess. cbn [p_sessions].
  apply lookup_singleton_eq.
Qed.

Lemma cachedProcess_configured :
  configured cachedProcess 3
    (mkSessionsConfigObj (Some 0%nat) (Some 0%nat) true)
    (mkSessionsConfigObj None (Some 3%nat) true) 3
    (mkISession (mkEchoSessionSCS secondSession 0 0 []) Initialize).
Proof.
  split; [vm_compute; reflexivity|]. split; [vm_compute; reflexivity|].
  split; [reflexivity|]. unfold cachedProcess. cbn [p_sessions].
  apply lookup_insert_eq.
Qed.

Lemma cachedProcess_Initialize :
  Initialize (mkEchoSessionSCS secondSession 0 0 []) (p_gob cachedProcess)
  = (None,
     mkEchoSessionSCS
       (mkSession 0%Z (24 * 3600 * Second)%Z (Cookie secondSession)
                  (contextKey secondSession)) 0 0 [],
     []).
Proof. vm_compute; reflexivity. Qed.

(** A config as the tests make them, with no skipper of its own: it is
    registered under the cookie name of its session. *)
Lemma setup_registers_config_once_witness :
  fst (SessionsWithConfig_setup (Some 3%nat) cachedProcess) = Ret 3%nat ∧
  ∃ cache',
    p_scache (snd (SessionsWithConfig_setup (Some 3%nat) cachedProcess))
      = Some cache' ∧
    CacheGet "session2" cache' = Some 3%nat ∧
    Length cache' = 1%nat.
Proof.
  destruct (proj1 (proj2 (setup_registers_config_once cachedProcess
              3 _ _ 3 _ _ _ cachedProcess_configured
              cachedProcess_Initialize))
              eq_refl ltac:(vm_compute; reflexivity))
    as (Hr & cache' & Hc & Hg & Hl & _).
  split; [exact Hr|]. exists cache'. split; [exact Hc|].
  split; [exact Hg|exact Hl].
Defined.

(** Sessions() a second time, and a second setup of a config as the
    tests make them. *)
Lemma setup_twice_panics_witness :
  fst (Sessions_setup (snd (Sessions_setup defaultProcess)))
  = Panic (cannot_initialize
      ("cannot register cache because SessionsConfig instance already found in cache where session key is "
       ++ "session")) ∧
  fst (SessionsWithConfig_setup (Some 3%nat)
         (snd (SessionsWithConfig_setup (Some 3%nat) cachedProcess)))
  = Panic (cannot_initialize
      ("cannot register cache because SessionsConfig instance already found in cache where session key is "
       ++ "session2")).
Proof.
  split.
  - refine (proj2 (setup_twice_panics defaultProcess DefaultSessionsConfig _ _ 0 _
                     (snd (Sessions_setup defaultProcess))
                     defaultProcess_configured eq_refl _) eq_refl).
    apply injective_projections; [vm_compute; reflexivity|reflexivity].
  - refine (proj1 (setup_twice_panics cachedProcess 3 _ _ 3 _
                     (snd (SessionsWithConfig_setup (Some 3%nat) cachedProcess))
                     cachedProcess_configured eq_refl _)).
    apply injective_projections; [vm_compute; reflexivity|reflexivity].
Defined.

Lemma setup_fills_defaults_witness :
  let r := SessionsWithConfig_setup (Some 2%nat) bareProcess in
  p_configs (snd r) !! 2%nat
    = Some (mkSessionsConfigObj (Some 0%nat) (Some 0%nat) false).
Proof.
  refine (proj1 (proj1 (setup_fills_defaults bareProcess 2 false
            (mkSessionsConfigObj (Some 0%nat) (Some 0%nat) true) _ _ _) _)).
  - discriminate.
  - vm_compute; reflexivity.
  - vm_compute; reflexivity.
  - vm_compute; reflexivity.
Defined.

(** * More of the manager: Pop, failing stores, the forced token *)

Section PopOnceFacts.
Context {S : Type} `{!Store S} `{!Codec}.
Implicit Types (s : Session) (w : world S) (sd : sessionData) (p : nat).

(** X28. Pop is a Get that works once: it returns what Get returns, and
    after it Get returns nil for the key, Exists reports false and a
    second Pop returns nil and changes nothing. *)
Theorem Pop_is_a_one_time_Get s key w p sd :
  session_at s w p sd →
  ∃ val w', Pop s key w = (Ret val, w') ∧
    Get s key w = (Ret val, w) ∧
    Get s key w' = (Ret VNil, w') ∧
    Exists s key w' = (Ret false, w') ∧
    Pop s key w' = (Ret VNil, w').
Proof.
  intros Hs. pose proof Hs as [Hc Hh].
  assert (HG : Get s key w = (Ret (default VNil (Values sd !! key)), w)).
  { unfold Get. rewrite (resolve_run _ _ _ _ _ Hs). reflexivity. }
  assert (Hafter : ∀ w' sd', session_at s w' p sd' → Values sd' !! key = None →
            Get s key w' = (Ret VNil, w') ∧ Exists s key w' = (Ret false, w') ∧
            Pop s key w' = (Ret VNil, w')).
  { intros w' sd' Hs' Hk. split; [|split].
    - unfold Get. rewrite (resolve_run _ _ _ _ _ Hs'). unfold_M. cbn.
      rewrite Hk. reflexivity.
    - unfold Exists. rewrite (resolve_run _ _ _ _ _ Hs'). unfold_M. cbn.
      rewrite Hk. rewrite bool_decide_eq_false_2 by (intros [? ?]; discriminate).
      reflexivity.
    - exact (Pop_absent s key w' p sd' Hs' Hk). }
  destruct (Values sd !! key) as [val|] eqn:Hk.
  - exists val, (popped p sd key w).
    split; [exact (Pop_present s key w p sd val Hs Hk)|].
    split; [exact HG|].
    apply (Hafter _ (set_status Modified (set_Values (delete key (Values sd)) sd))).
    + split; [exact Hc|]. unfold popped. cbn. apply lookup_insert_eq.
    + cbn. apply lookup_delete_eq.
  - exists VNil, w. split; [exact (Pop_absent s key w p sd Hs Hk)|].
    split; [exact HG|]. exact (Hafter w sd Hs Hk).
Qed.

(** X29. When Store.Delete fails, Destroy and RenewToken return its error
    and leave the session as it was: the status is not Destroyed, the
    token is kept, no token is drawn. When RenewToken cannot generate a
    token it returns that error after the old token has been deleted from
    the store, and the session still carries the old token. *)
Theorem Destroy_and_RenewToken_errors s w p sd :
  session_at s w p sd →
  (∀ e st, Delete (token sd) (w_store w) = (Some e, st) →
     Destroy s w = (Ret (Some e), set_store st w) ∧
     RenewToken s w = (Ret (Some e), set_store st w)) ∧
  (∀ e st, Delete (token sd) (w_store w) = (None, st) →
     w_entropy w (w_draws w) = Err e →
     ∃ w', RenewToken s w = (Ret (Some e), w') ∧
       w_store w' = st ∧ session_at s w' p sd).
Proof.
  intros Hs. pose proof Hs as [Hc Hh]. split.
  - intros e st Hd. split.
    + unfold Destroy. rewrite (resolve_run _ _ _ _ _ Hs).
      unfold Store_Delete. unfold_M. rewrite Hd. reflexivity.
    + unfold RenewToken. rewrite (resolve_run _ _ _ _ _ Hs).
      unfold Store_Delete. unfold_M. rewrite Hd. reflexivity.
  - intros e st Hd He. eexists. split.
    + unfold RenewToken. rewrite (resolve_run _ _ _ _ _ Hs).
      unfold Store_Delete, generateToken, rand_Read. unfold_M. rewrite Hd. cbn.
      rewrite He. reflexivity.
    + split; [reflexivity|]. split; assumption.
Qed.

End PopOnceFacts.

Lemma Pop_is_a_one_time_Get_witness :
  ∃ w', Pop idleSession "user" modifiedWorld = (Ret (VString "alice"), w') ∧
        Pop idleSession "user" w' = (Ret VNil, w').
Proof.
  destruct (Pop_is_a_one_time_Get idleSession "user" modifiedWorld 0 _
              modifiedWorld_session) as (val & w' & HP & HG & _ & _ & HP2).
  assert (HG' : Get idleSession "user" modifiedWorld
                = (Ret (VString "alice"), modifiedWorld))
    by (vm_compute; reflexivity).
  rewrite HG' in HG. injection HG as <-.
  exists w'. split; [exact HP|exact HP2].
Defined.

(** A request whose random source has run dry. *)
Lemma Destroy_and_RenewToken_errors_witness :
  let w := mkWorld (w_store committedWorld) (w_heap committedWorld)
                   (w_scratch committedWorld) ∅ ∅ (λ _, time_Unix 1000) 0
                   (λ _, Err "unexpected EOF") 0 in
  ∃ w', RenewToken idleSession w = (Ret (Some "unexpected EOF"), w') ∧
        ms_items (w_store w') !! exampleToken = None ∧
        (token <$> current idleSession w') = Some exampleToken.
Proof.
  intros w.
  assert (Hs : session_at idleSession w 0
            (mkSessionData (Add (time_Unix 1000) (Lifetime idleSession))
               Modified exampleToken {["user" := VString "alice"]}))
    by (split; vm_compute; reflexivity).
  destruct (proj2 (Destroy_and_RenewToken_errors idleSession w 0 _ Hs)
              "unexpected EOF" (snd (Delete exampleToken (w_store w))))
    as (w' & HR & Hst & Hs').
  - reflexivity.
  - reflexivity.
  - exists w'. split; [exact HR|]. split.
    + rewrite Hst. vm_compute. reflexivity.
    + unfold current. destruct Hs' as [-> ->]. reflexivity.
Defined.

(** ** The override of the tests: a token on the first visit *)

Section OverrideFacts.
Context {S : Type} `{!Store S} `{!Codec}.
Implicit Types (s : Session) (w : world S) (sd : sessionData) (p : nat).

(** X30. On a first visit (no cookie, no session on the request) the
    LoadFromMiddleware of MyEchoSession marks the new session Modified, so
    the middleware commits it before the handler: when that Commit
    succeeds the handler runs on a session that carries a non-empty token,
    with one Set-Cookie header added for it. With the LoadFromMiddleware
    of Session the same request reaches the handler with no header added. *)
Theorem MyEchoSession_first_visit_gets_a_token s w next :
  no_session s w → w_cookies w !! Name (Cookie s) = None →
  ∃ p w1,
    MyEchoSession_LoadFromMiddleware s w = (Ret None, w1) ∧
    w_heap w !! p = None ∧
    session_at s w1 p
      (mkSessionData (Add (w_clock w (w_ticks w)) (Lifetime s)) Modified "" ∅) ∧
    (∀ tok expiry w2,
       Commit s w1 = (Ret (tok, expiry, None), w2) →
       ∃ c w', SessionsWithConfig (MyEchoSession_config s) next w = next w' ∧
         tok ≠ "" ∧ cValue c = tok ∧
         Set_Cookies w' = (Set_Cookies w ++ [cookie_String c])%list ∧
         session_at s w' p
           (mkSessionData (Add (w_clock w (w_ticks w)) (Lifetime s))
                          Modified tok ∅)) ∧
    ∃ w0, SessionsWithConfig
            (mkSessionsConfig (mret false) (LoadFromMiddleware s)
                              (SaveFromMiddleware s)) next w = next w0 ∧
          w_headers w0 = w_headers w.
Proof.
  intros Hno Hck.
  set (sd0 := mkSessionData (Add (w_clock w (w_ticks w)) (Lifetime s))
                            Modified "" ∅).
  assert (HL : ∃ w1, MyEchoSession_LoadFromMiddleware s w = (Ret None, w1) ∧
            session_at s w1 (fresh (dom (w_heap w))) sd0 ∧
            w_headers w1 = w_headers w).
  { eexists.
    unfold MyEchoSession_LoadFromMiddleware, sessionData_Token,
      sessionData_SetStatus, ctx_Cookie, session_at. unfold_manager.
    rewrite Hck. cbn.
    destruct (w_scratch w !! contextKey s) as [[q|t]|] eqn:Ec;
      [exfalso; exact (Hno q Ec)| |];
      (destruct (decide ("" = "")) as [_|Hn]; [|exfalso; exact (Hn eq_refl)]);
      cbn; rewrite !lookup_insert_eq; cbn;
      (destruct (decide ("" = "")) as [_|Hn]; [|exfalso; exact (Hn eq_refl)]);
      cbn; rewrite ?lookup_insert_eq; cbn;
      (split; [reflexivity|]); cbn; rewrite ?lookup_insert_eq;
      (split; [split; reflexivity|reflexivity]). }
  destruct HL as (w1 & HL & Hs1 & Hh1).
  exists (fresh (dom (w_heap w))), w1.
  split; [exact HL|]. split; [apply fresh_not_allocated|].
  split; [exact Hs1|]. split.
  - intros tok expiry w2 HC.
    destruct (Commit_success_inv s w1 _ _ tok expiry w2 Hs1 HC)
      as (Hne & _ & Hs2 & _).
    destruct (SaveFromMiddleware_commits s w1 _ _ tok expiry w2 Hs1 eq_refl HC)
      as (c & w' & HSv & Hsc & Hv & _ & _ & Hheap & Hscr).
    exists c, w'. split.
    + unfold SessionsWithConfig, MyEchoSession_config. cbn [Skipper LoadCheck SaveCheck].
      unfold mbind at 1, mret at 1, M_bind, M_ret. cbn.
      rewrite (bind_ret _ _ _ _ _ HL), (bind_ret _ _ _ _ _ HSv). reflexivity.
    + split; [exact Hne|]. split; [exact Hv|]. split.
      * rewrite Hsc. unfold Set_Cookies. rewrite Hh1. reflexivity.
      * destruct Hs2 as [Hc2 Hp2]. split; [rewrite Hscr; exact Hc2|].
        rewrite Hheap. exact Hp2.
  - eexists.
    unfold SessionsWithConfig, LoadFromMiddleware, SaveFromMiddleware, GetStatus,
      getSessionDataFromContext, ctx_Cookie. cbn [Skipper LoadCheck SaveCheck].
    unfold_manager. rewrite Hck. cbn.
    destruct (w_scratch w !! contextKey s) as [[q|t]|] eqn:Ec;
      [exfalso; exact (Hno q Ec)| |];
      (destruct (decide ("" = "")) as [_|Hn]; [|exfalso; exact (Hn eq_refl)]);
      cbn; rewrite ?lookup_insert_eq; cbn; rewrite ?lookup_insert_eq; cbn;
      (split; [reflexivity|reflexivity]).
Qed.

End OverrideFacts.

Lemma MyEchoSession_first_visit_gets_a_token_witness :
  ∃ c w', SessionsWithConfig (MyEchoSession_config exampleSession)
                             exampleHandler exampleWorld = exampleHandler w' ∧
    cValue c = exampleToken ∧
    Set_Cookies w' = [cookie_String c] ∧
    (token <$> current exampleSession w') = Some exampleToken.
Proof.
  assert (Hno : no_session exampleSession exampleWorld)
    by (intros p; vm_compute; discriminate).
  destruct (MyEchoSession_first_visit_gets_a_token exampleSession exampleWorld
              exampleHandler Hno eq_refl)
    as (p & w1 & HL & _ & Hs1 & Hok & _).
  assert (HL' : ∃ w1', MyEchoSession_LoadFromMiddleware exampleSession exampleWorld
                       = (Ret None, w1')
                ∧ fst (Commit exampleSession w1')
                  = Ret (exampleToken, Add (time_Unix 1000) (Lifetime exampleSession),
                         None)).
  { eexists. split; vm_compute; reflexivity. }
  destruct HL' as (w1' & HL' & HC).
  rewrite HL in HL'. injection HL' as <-.
  destruct (Hok exampleToken (Add (time_Unix 1000) (Lifetime exampleSession))
                (snd (Commit exampleSession w1)))
    as (c & w' & HM & _ & Hv & Hsc & Hs').
  { rewrite <- HC. apply surjective_pairing. }
  exists c, w'. split; [exact HM|]. split; [exact Hv|]. split; [exact Hsc|].
  unfold current. destruct Hs' as [-> ->]. reflexivity.
Defined.
